(** * ENLIGHTEN: horizontal ROI, trigger, Raman-mode and cloud-restore features

    A shallow embedding of the feature classes of ENLIGHTEN
    ([enlighten/post_processing/HorizROIFeature.py],
    [enlighten/ExternalTriggerFeature.py],
    [enlighten/post_processing/RamanModeFeature.py],
    [enlighten/CloudManager.py], [enlighten/common.py]) and the properties
    of their specification.

    Python objects are records, [None] is [option]'s [None], a method that
    assigns attributes of [self] returns the updated record, and code that
    can raise returns a [result]. *)

From Stdlib Require Import ZArith List Bool String Ascii Lia.
From Stdlib Require Floats.
Import ListNotations.

Set Warnings "-register-all".

Local Open Scope string_scope.
Local Open Scope list_scope.
Local Open Scope Z_scope.

(* ================================================================== *)
(** * Python values, exceptions and slices *)
(* ================================================================== *)

(** The exceptions the modelled code can meet. *)
Inductive exn : Type :=
| AttributeError (what : string)   (* attribute access on [None] *)
| KeyError (key : string)          (* missing dictionary / environment key *)
| ClientError (what : string).     (* any failure of the cloud SDK *)

(** Outcome of a Python call: a value, or a raised exception. *)
Inductive result (A : Type) : Type :=
| Ok (a : A)
| Raise (e : exn).
Arguments Ok {A} a.
Arguments Raise {A} e.

Definition rbind {A B} (r : result A) (k : A -> result B) : result B :=
  match r with
  | Ok a => k a
  | Raise e => Raise e
  end.

Declare Scope py_scope.
Delimit Scope py_scope with py.
Notation "x <- c ;; k" := (rbind c (fun x => k))
  (at level 61, c at next level, right associativity) : py_scope.

(** [x is None] *)
Definition is_None {A} (x : option A) : bool :=
  match x with None => true | Some _ => false end.

(** Truth value of an object reference: [None] is false; the objects tested
    in the modelled code (Spectrometer, SpectrometerSettings) define neither
    [__bool__] nor [__len__], so every instance is true. *)
Definition truthy {A} (x : option A) : bool := negb (is_None x).

(** [len(l)] *)
Definition len {A} (l : list A) : Z := Z.of_nat (List.length l).

(** A slice bound as Python normalises it: a negative bound counts from the
    end, and every bound is clamped to [0, len]. *)
Definition slice_bound (n i : Z) : Z :=
  if i <? 0 then Z.max 0 (i + n) else Z.min i n.

(** [l[i:j]] *)
Definition slice {A} (l : list A) (i j : Z) : list A :=
  let lo := slice_bound (len l) i in
  let hi := slice_bound (len l) j in
  firstn (Z.to_nat (hi - lo)) (skipn (Z.to_nat lo) l).

(** [l[i]]: a negative index counts from the end; [None] stands for the
    IndexError of an index outside [-len, len). *)
Definition getitem {A} (l : list A) (i : Z) : option A :=
  if (0 <=? i) && (i <? len l) then nth_error l (Z.to_nat i)
  else if (- len l <=? i) && (i <? 0) then nth_error l (Z.to_nat (i + len l))
  else None.

(** A pixel index of an array of [n] elements. *)
Definition in_bounds (n i : Z) : Prop := 0 <= i < n.

(* ================================================================== *)
(** * The collaborators of the [wasatch] driver package *)
(* ================================================================== *)

(** Modelled from the spec: [wasatch.ROI] is not part of this repository.
    "a (start, end) pixel-index pair with a validity predicate (valid():
    start < end, both within bounds) and a crop(array) operation returning
    array[start:end]".  A ROI knows no array, so the only bound [valid] can
    test is that the pair holds pixel indices, that is, is not negative. *)
Record ROI : Type := mkROI { start : Z; end_ : Z }.

Definition ROI_valid (roi : ROI) : bool :=
  (0 <=? start roi) && (start roi <? end_ roi).

Definition ROI_crop {A} (roi : ROI) (spectrum : list A) : list A :=
  slice spectrum (start roi) (end_ roi).

(** The EEPROM record: only what the features query.  [get_horizontal_roi()]
    and [has_horizontal_roi()] are kept as two independent answers, so that
    nothing is assumed about how the driver relates them. *)
Record EEPROM : Type := mkEEPROM {
  get_horizontal_roi : option ROI;
  has_horizontal_roi : bool;
  has_laser : bool
}.

(** [settings.state]: the mutable state record of the device. *)
Record SpectrometerState : Type := mkState {
  trigger_source : Z
}.

Section Samples.

(** The type of one array element (a pixel's intensity, a wavelength). *)
Context {sample : Type}.

(** [wasatch.SpectrometerSettings], as far as the features read it. *)
Record SpectrometerSettings : Type := mkSettings {
  eeprom : EEPROM;
  state : SpectrometerState;
  wavelengths : option (list sample);
  wavenumbers : option (list sample);
  supports_triggering : bool;          (* hardware_info.supports_triggering() *)
  is_micro : bool                      (* is_micro() *)
}.

(** [enlighten.Spectrometer]: the features only follow its [settings]. *)
Record Spectrometer : Type := mkSpectrometer {
  settings : SpectrometerSettings
}.

(** [x.settings] where [x] may be [None]. *)
Definition settings_of (x : option Spectrometer) : result SpectrometerSettings :=
  match x with
  | Some sp => Ok (settings sp)
  | None => Raise (AttributeError "settings")
  end.

(** Modelled from the spec: [wasatch.ProcessedReading] is not part of this
    repository.  "a bundle of parallel arrays (processed spectrum, raw,
    dark, reference, wavelengths, wavenumbers) all indexed by pixel
    position", with the settings it was taken under and the [cropped]
    side-channel. *)
Inductive ProcessedReading : Type := mkPR {
  pr_settings : option SpectrometerSettings;
  processed : option (list sample);
  raw : option (list sample);
  dark : option (list sample);
  reference : option (list sample);
  pr_wavelengths : option (list sample);
  pr_wavenumbers : option (list sample);
  cropped : option ProcessedReading
}.

(** [ProcessedReading(settings=settings)]: a fresh bundle, every array unset. *)
Definition ProcessedReading_new (s : SpectrometerSettings) : ProcessedReading :=
  mkPR (Some s) None None None None None None None.

(** [enlighten.Multispec]: the connected spectrometers and the selected one. *)
Record Multispec : Type := mkMultispec {
  current_spectrometer : option Spectrometer;   (* current_spectrometer() *)
  get_spectrometers : list Spectrometer         (* get_spectrometers() *)
}.

(** What the features read of the controller [self.ctl]. *)
Record Controller : Type := mkCtl {
  multispec : Multispec;
  doing_expert : bool;                          (* page_nav.doing_expert() *)
  doing_raman : bool;                           (* page_nav.doing_raman() *)
  is_paused : bool                              (* vcr_controls.is_paused() *)
}.

End Samples.

Arguments SpectrometerSettings : clear implicits.
Arguments Spectrometer : clear implicits.
Arguments ProcessedReading : clear implicits.
Arguments Multispec : clear implicits.
Arguments Controller : clear implicits.

(* ================================================================== *)
(** * Qt widgets *)
(* ================================================================== *)

(** A [QCheckBox], as far as the features drive it. *)
Record CheckBox : Type := mkCheckBox {
  isVisible : bool;
  isChecked : bool
}.

Definition setVisible (cb : CheckBox) (b : bool) : CheckBox :=
  mkCheckBox b (isChecked cb).

Definition setChecked (cb : CheckBox) (b : bool) : CheckBox :=
  mkCheckBox (isVisible cb) b.

(* ================================================================== *)
(** * enlighten/post_processing/HorizROIFeature.py *)
(* ================================================================== *)

Module HorizROIFeature.

(** What the feature does to the widgets and the graph, in call order.
    [update_regions] only moves the curtains of the graph and the observers
    only flush caches: neither writes the two flags of the feature, and both
    are kept as opaque events. *)
Inductive ui_event {sample : Type} : Type :=
| CbEditingSetVisible (b : bool)
| ButtonSetVisible (b : bool)
| StylesheetApply (name : string)
| ButtonSetToolTip (tip : string)
| UpdateRegions (spec : Spectrometer sample)
| NotifyObservers.
Arguments ui_event : clear implicits.

(** The attributes of [self] that the feature assigns. *)
Record t : Type := mk {
  enabled : bool;
  user_requested_enabled : bool
}.

Definition set_enabled (self : t) (b : bool) : t :=
  mk b (user_requested_enabled self).

Section Feature.

Context {sample : Type}.

Definition update_visibility (ctl : Controller sample) (self : t)
  : t * list (ui_event sample) :=
  match current_spectrometer (multispec ctl) with
  | None => (self, [])
  | Some spec =>
      let ev_editing := [CbEditingSetVisible (doing_expert ctl)] in
      let self := set_enabled self (user_requested_enabled self) in
      let '(self, ev_button) :=
        if has_horizontal_roi (eeprom (settings spec)) then
          (self,
           ButtonSetVisible true ::
           (if enabled self
            then [StylesheetApply "gray_gradient_button";
                  ButtonSetToolTip "spectra cropped per horizontal ROI"]
            else [StylesheetApply "red_gradient_button";
                  ButtonSetToolTip
                    "uncropped spectra shown (curtains indicate ROI limits)"]))
        else
          (set_enabled self false, [ButtonSetVisible false]) in
      (self,
       ev_editing ++ ev_button
       ++ map UpdateRegions (get_spectrometers (multispec ctl))
       ++ [NotifyObservers])
  end.

(** [__init__]: both flags default to true, then the visibility is set. *)
Definition init (ctl : Controller sample) : t * list (ui_event sample) :=
  update_visibility ctl (mk true true).

Definition button_callback (ctl : Controller sample) (self : t)
  : t * list (ui_event sample) :=
  let self := mk (negb (enabled self)) (user_requested_enabled self) in
  let self := mk (enabled self) (enabled self) in
  update_visibility ctl self.

Definition init_hotplug (ctl : Controller sample) (self : t) : t :=
  set_enabled self
    (match current_spectrometer (multispec ctl) with
     | None => false
     | Some spec =>
         has_horizontal_roi (eeprom (settings spec))
         && user_requested_enabled self
     end).

(** [crop(self, spectrum, spec=None, roi=None, settings=None)].  The method
    reads [self.ctl] only; a bare [return] gives [None]. *)
Definition crop {A : Type} (ctl : Controller sample)
    (spectrum : option (list A))
    (spec : option (Spectrometer sample))
    (roi : option ROI)
    (settings : option (SpectrometerSettings sample))
  : result (option (list A)) :=
  (match spectrum with
   | None => Ok None
   | Some spectrum =>
       roi <- (if is_None roi && truthy settings
               then s <- settings_of spec ;; Ok (get_horizontal_roi (eeprom s))
               else Ok roi) ;;
       roi <- (if is_None roi && truthy spec
               then s <- settings_of spec ;; Ok (get_horizontal_roi (eeprom s))
               else Ok roi) ;;
       roi <- (if is_None roi
               then
                 let spec := current_spectrometer (multispec ctl) in
                 if truthy spec
                 then s <- settings_of spec ;; Ok (get_horizontal_roi (eeprom s))
                 else Ok roi
               else Ok roi) ;;
       match roi with
       | None => Ok (Some spectrum)
       | Some roi =>
           let orig_len := len spectrum in
           if negb (ROI_valid roi)
              || (start roi >=? orig_len) || (end_ roi >=? orig_len)
           then Ok (Some spectrum)
           else Ok (Some (ROI_crop roi spectrum))
       end
   end)%py.

(** [pr.cropped = prc] *)
Definition set_cropped (pr prc : ProcessedReading sample)
  : ProcessedReading sample :=
  mkPR (pr_settings pr) (processed pr) (raw pr) (dark pr) (reference pr)
       (pr_wavelengths pr) (pr_wavenumbers pr) (Some prc).

(** [spec.settings], under a name that the argument [settings] of [process]
    does not hide. *)
Definition settings_attr (spec : Spectrometer sample)
  : SpectrometerSettings sample :=
  settings spec.

(** [process(self, pr, settings=None)] returns nothing; its effect is on the
    object [pr] refers to, so the model returns that object as the call
    leaves it ([None] when [pr] is [None]). *)
Definition process (ctl : Controller sample) (self : t)
    (pr : option (ProcessedReading sample))
    (settings : option (SpectrometerSettings sample))
  : result (option (ProcessedReading sample)) :=
  (if negb (enabled self) then Ok pr
   else
     match pr with
     | None => Ok pr
     | Some p =>
         if is_None (processed p) then Ok pr
         else
           let settings :=
             if is_None settings then pr_settings p else settings in
           let settings :=
             if is_None settings
             then match current_spectrometer (multispec ctl) with
                  | Some spec => Some (settings_attr spec)
                  | None => settings
                  end
             else settings in
           match settings with
           | None => Ok pr
           | Some settings =>
               let roi := get_horizontal_roi (eeprom settings) in
               if is_None roi then Ok pr
               else
                 let prc := ProcessedReading_new settings in
                 c_processed <- crop ctl (processed p) None roi None ;;
                 c_raw <- crop ctl (raw p) None roi None ;;
                 c_reference <- crop ctl (raw p) None roi None ;;
                 c_wavelengths <- crop ctl (wavelengths settings) None roi None ;;
                 c_wavenumbers <- crop ctl (wavenumbers settings) None roi None ;;
                 let prc :=
                   mkPR (pr_settings prc) c_processed c_raw (dark prc)
                        c_reference c_wavelengths c_wavenumbers (cropped prc) in
                 Ok (Some (set_cropped p prc))
           end
     end)%py.

(** ** The curtains of the graph: [update_regions] and its callers *)

Inductive side : Type := Left | Right.

(** Calls on the graph and on the two regions of a spectrometer
    ([spec.roi_region_left], [spec.roi_region_right]), in call order. *)
Inductive graph_event : Type :=
| RemoveRoiRegion (spec : Spectrometer sample) (region : side)
| SetRegion (spec : Spectrometer sample) (region : side) (lo hi : sample)
| AddRoiRegion (spec : Spectrometer sample) (region : side).

(** How a call ended: it returned, or an index ran out of the axis. *)
Inductive ending : Type := Returned | IndexError.

(** [is_editing]: the state of the checkbox [cb_editing]. *)
Definition is_editing (cb_editing : CheckBox) : bool := isChecked cb_editing.

Section Regions.

(** [spec.settings.pixels()] and the axis that
    [ctl.generate_x_axis(cropped=False)] answers with: code of the driver and
    of the controller that the repository does not hold. *)
Variable pixels : SpectrometerSettings sample -> Z.
Variable generate_x_axis : list sample.

(** The body of [update_regions] once [spec] is settled.  A ROI object is
    true as every object without [__bool__] and [__len__] is. *)
Definition update_regions_of (cb_editing : CheckBox)
    (spec : Spectrometer sample) : list graph_event * ending :=
  if negb (is_editing cb_editing)
  then ([RemoveRoiRegion spec Left; RemoveRoiRegion spec Right], Returned)
  else
    let roi := get_horizontal_roi (eeprom (settings spec)) in
    let '(start, end_) :=
      match roi with
      | Some roi => (start roi, end_ roi)
      | None => (0, pixels (settings spec))
      end in
    let axis := generate_x_axis in
    match getitem axis 0, getitem axis start with
    | Some a0, Some a_start =>
        match getitem axis end_, getitem axis (-1) with
        | Some a_end, Some a_last =>
            ([SetRegion spec Left a0 a_start;
              SetRegion spec Right a_end a_last;
              AddRoiRegion spec Left; AddRoiRegion spec Right],
             Returned)
        | _, _ => ([SetRegion spec Left a0 a_start], IndexError)
        end
    | _, _ => ([], IndexError)
    end.

(** [update_regions(self, spec=None)] *)
Definition update_regions (ctl : Controller sample) (cb_editing : CheckBox)
    (spec : option (Spectrometer sample)) : list graph_event * ending :=
  let spec :=
    if is_None spec then current_spectrometer (multispec ctl) else spec in
  match spec with
  | None => ([], Returned)
  | Some spec => update_regions_of cb_editing spec
  end.

(** [for spec in ...: self.update_regions(spec)]: an exception ends the
    loop. *)
Fixpoint update_regions_each (ctl : Controller sample) (cb_editing : CheckBox)
    (specs : list (Spectrometer sample)) : list graph_event * ending :=
  match specs with
  | [] => ([], Returned)
  | spec :: rest =>
      match update_regions ctl cb_editing (Some spec) with
      | (ev, Returned) =>
          let '(ev', e) := update_regions_each ctl cb_editing rest in
          (ev ++ ev', e)
      | (ev, IndexError) => (ev, IndexError)
      end
  end.

Definition cb_editing_callback (ctl : Controller sample)
    (cb_editing : CheckBox) : list graph_event * ending :=
  update_regions_each ctl cb_editing (get_spectrometers (multispec ctl)).

Definition change_axis_callback (ctl : Controller sample)
    (cb_editing : CheckBox) : list graph_event * ending :=
  update_regions ctl cb_editing None.

End Regions.

(** ** The states of the feature that its methods lead to *)

(** From [__init__], by any of the methods that assign the flags, each
    under whatever the controller shows at the time. *)
Inductive reachable : t -> Prop :=
| reach_init ctl : reachable (fst (init ctl))
| reach_button_callback ctl self :
    reachable self -> reachable (fst (button_callback ctl self))
| reach_init_hotplug ctl self :
    reachable self -> reachable (init_hotplug ctl self)
| reach_update_visibility ctl self :
    reachable self -> reachable (fst (update_visibility ctl self)).

(** ** Vocabulary of the properties *)

(** The ROI that [crop] settles on: its first three [if]s, on their own. *)
Definition roi_lookup (ctl : Controller sample)
    (spec : option (Spectrometer sample)) (roi : option ROI)
    (settings : option (SpectrometerSettings sample))
  : result (option ROI) :=
  (roi <- (if is_None roi && truthy settings
           then s <- settings_of spec ;; Ok (get_horizontal_roi (eeprom s))
           else Ok roi) ;;
   roi <- (if is_None roi && truthy spec
           then s <- settings_of spec ;; Ok (get_horizontal_roi (eeprom s))
           else Ok roi) ;;
   if is_None roi
   then
     let spec := current_spectrometer (multispec ctl) in
     if truthy spec
     then s <- settings_of spec ;; Ok (get_horizontal_roi (eeprom s))
     else Ok roi
   else Ok roi)%py.

(** What [crop] makes of an array once the ROI is settled: its guard and
    its slice. *)
Definition crop_to {A : Type} (roi : ROI) (spectrum : list A) : list A :=
  if negb (ROI_valid roi)
     || (start roi >=? len spectrum) || (end_ roi >=? len spectrum)
  then spectrum
  else ROI_crop roi spectrum.

(** The bundle that [process] builds from a reading, the settings and the
    ROI it settled on. *)
Definition cropped_bundle (p : ProcessedReading sample)
    (s : SpectrometerSettings sample) (roi : ROI) : ProcessedReading sample :=
  mkPR (Some s)
       (option_map (crop_to roi) (processed p))
       (option_map (crop_to roi) (raw p))
       None
       (option_map (crop_to roi) (raw p))
       (option_map (crop_to roi) (wavelengths s))
       (option_map (crop_to roi) (wavenumbers s))
       None.

(** The settings that [process] settles on: the argument, else those of the
    reading, else those of the current spectrometer. *)
Definition settings_lookup (ctl : Controller sample)
    (p : ProcessedReading sample)
    (settings : option (SpectrometerSettings sample))
  : option (SpectrometerSettings sample) :=
  match settings, pr_settings p, current_spectrometer (multispec ctl) with
  | Some s, _, _ => Some s
  | None, Some s, _ => Some s
  | None, None, Some spec => Some (settings_attr spec)
  | None, None, None => None
  end.



(** Two clicks on the button, one after the other, under one controller. *)
Definition button_callback_twice (ctl : Controller sample) (self : t) : t :=
  fst (button_callback ctl (fst (button_callback ctl self))).

(** The states that two clicks lead back to: the two flags agree, or, under
    a current spectrometer without ROI, the feature is off while the user's
    request stands. *)
Definition settled (ctl : Controller sample) (self : t) : Prop :=
  match current_spectrometer (multispec ctl) with
  | None => enabled self = user_requested_enabled self
  | Some spec =>
      if has_horizontal_roi (eeprom (settings spec))
      then enabled self = user_requested_enabled self
      else enabled self = false /\ user_requested_enabled self = true
  end.

(** The length of what [crop] makes of an array of [n] elements. *)
Definition cropped_len (roi : ROI) (n : Z) : Z :=
  if negb (ROI_valid roi) || (start roi >=? n) || (end_ roi >=? n)
  then n
  else end_ roi - start roi.

End Feature.

End HorizROIFeature.

(* ================================================================== *)
(** * enlighten/ExternalTriggerFeature.py *)
(* ================================================================== *)

Module ExternalTriggerFeature.

(** What [enable_callback] sends out, in call order. *)
Inductive effect : Type :=
| ChangeDeviceSetting (name : string) (value : Z)   (* multispec.change_device_setting *)
| LogWarn (value : Z)
| MarqueeInfo (msg : string)
| ResetAcquisitionTimeout.

Record t : Type := mk {
  cb_enabled : CheckBox;
  enabled : bool
}.

Section Feature.

Context {sample : Type}.

(** The two constants of [wasatch.SpectrometerState], whose values the
    repository does not fix. *)
Variables TRIGGER_SOURCE_INTERNAL TRIGGER_SOURCE_EXTERNAL : Z.

(** [__init__] *)
Definition init (cb_enabled : CheckBox) : t := mk cb_enabled false.

Definition update_visibility (multispec : Multispec sample) (self : t) : t :=
  match current_spectrometer multispec with
  | None => mk (setVisible (cb_enabled self) false) (enabled self)
  | Some spec =>
      let supports_triggering := supports_triggering (settings spec) in
      let cb := setVisible (cb_enabled self) supports_triggering in
      let enabled :=
        supports_triggering
        && (trigger_source (state (settings spec)) =? TRIGGER_SOURCE_EXTERNAL) in
      mk (setChecked cb enabled) enabled
  end.

Definition is_enabled (self : t) : bool := enabled self.

Definition enable_callback (multispec : Multispec sample) (self : t)
  : t * list effect :=
  match current_spectrometer multispec with
  | None => (self, [])
  | Some spec =>
      let self := mk (cb_enabled self) (isChecked (cb_enabled self)) in
      let value :=
        if enabled self then TRIGGER_SOURCE_EXTERNAL
        else TRIGGER_SOURCE_INTERNAL in
      if value =? trigger_source (state (settings spec)) then (self, [])
      else
        (self,
         [ChangeDeviceSetting "trigger_source" value; LogWarn value]
         ++ (if enabled self then [MarqueeInfo "waiting for trigger"] else [])
         ++ [ResetAcquisitionTimeout])
  end.

(** The trigger source that [enable_callback] computes from the checkbox. *)
Definition requested_trigger_source (self : t) : Z :=
  if isChecked (cb_enabled self) then TRIGGER_SOURCE_EXTERNAL
  else TRIGGER_SOURCE_INTERNAL.

End Feature.

End ExternalTriggerFeature.

(* ================================================================== *)
(** * enlighten/post_processing/RamanModeFeature.py *)
(* ================================================================== *)

Module RamanModeFeature.

Definition LASER_WARMUP_MS : Z := 5000.
Definition SECTION : string := "Raman Mode".
Definition LASER_CONTROL_DISABLE_REASON : string := "Raman Mode enabled".

(** Calls on [ctl.laser_control], in call order. *)
Inductive effect : Type :=
| SetRestriction (reason : string)
| ClearRestriction (reason : string).

Record t : Type := mk {
  cb_enable : CheckBox;
  enabled : bool;
  visible : bool
}.

(** What [confirm] consults: the stored option
    [suppress_raman_mode_warning] of the configuration and the user's answer
    to the warning box ([result["ok"]], [result["checked"]]). *)
Record Dialogs : Type := mkDialogs {
  suppress_raman_mode_warning : bool;
  msgbox_ok : bool;
  msgbox_checked : bool
}.

(** [confirm]: the answer, and the configuration option as the call
    leaves it. *)
Definition confirm (d : Dialogs) : bool * bool :=
  if suppress_raman_mode_warning d then (true, true)
  else if negb (msgbox_ok d) then (false, false)
  else if msgbox_checked d then (true, true)
  else (true, false).

Definition with_suppress (d : Dialogs) (b : bool) : Dialogs :=
  mkDialogs b (msgbox_ok d) (msgbox_checked d).

Definition enable_callback (d : Dialogs) (self : t)
  : t * Dialogs * list effect :=
  let enabled := visible self && isChecked (cb_enable self) in
  let '(confirmed, d) :=
    if enabled
    then let '(ok, suppress) := confirm d in (ok, with_suppress d suppress)
    else (true, d) in
  if enabled && negb confirmed
  then (mk (setChecked (cb_enable self) false) (RamanModeFeature.enabled self)
           (visible self), d, [])
  else
    (mk (cb_enable self) enabled (visible self), d,
     if enabled then [SetRestriction LASER_CONTROL_DISABLE_REASON]
     else [ClearRestriction LASER_CONTROL_DISABLE_REASON]).

Section Feature.

Context {sample : Type}.

Definition update_visibility (ctl : Controller sample) (d : Dialogs) (self : t)
  : t * Dialogs * list effect :=
  let visible :=
    match current_spectrometer (multispec ctl) with
    | None => false
    | Some spec =>
        is_micro (settings spec)
        && doing_raman ctl
        && is_paused ctl
        && has_laser (eeprom (settings spec))
    end in
  let self := mk (setVisible (cb_enable self) visible) (enabled self) visible in
  if negb visible
  then (mk (setChecked (cb_enable self) false) (enabled self)
           (RamanModeFeature.visible self),
        d, [ClearRestriction LASER_CONTROL_DISABLE_REASON])
  else enable_callback d self.

(** Whether the box is to be visible: the condition of
    [update_visibility]. *)
Definition shows_raman (ctl : Controller sample) : bool :=
  match current_spectrometer (multispec ctl) with
  | None => false
  | Some spec =>
      is_micro (settings spec) && doing_raman ctl && is_paused ctl
      && has_laser (eeprom (settings spec))
  end.

(** [disconnect] *)
Definition disconnect (ctl : Controller sample) (d : Dialogs) (self : t)
  : t * Dialogs * list effect :=
  update_visibility ctl d
    (mk (setChecked (cb_enable self) false) (enabled self)
        (RamanModeFeature.visible self)).



(** [datetime.now() + timedelta(milliseconds=timeout_ms)], kept as the
    reading of the clock (the [read]-th of the call) and the milliseconds
    added to it. *)
Record Deadline : Type := mkDeadline {
  read : nat;
  timeout_ms : Z
}.

(** What [take_one_start] and [take_one_complete] do, in call order. *)
Inductive take_one_effect : Type :=
| DarkClear (quiet : bool)                      (* dark_feature.clear(quiet=...) *)
| SetIgnoreTimeoutsUntil (spec : Spectrometer sample) (until : Deadline)
| RefreshLaserButtons (force_on : option bool). (* None: the default *)

Section TakeOne.

(** [spec.settings.state.integration_time_ms], a field of the driver's state
    record beside [trigger_source]. *)
Variable integration_time_ms : Spectrometer sample -> Z.

(** The loop of [take_one_start] over the spectrometers; [k] counts the
    readings of the clock. *)
Fixpoint ignore_timeouts (buffer_ms scans_to_average : Z) (k : nat)
    (specs : list (Spectrometer sample)) : list take_one_effect :=
  match specs with
  | [] => []
  | spec :: rest =>
      let timeout_ms :=
        buffer_ms + LASER_WARMUP_MS
        + 2 * integration_time_ms spec * scans_to_average in
      SetIgnoreTimeoutsUntil spec (mkDeadline k timeout_ms)
      :: ignore_timeouts buffer_ms scans_to_average (S k) rest
  end.

(** [take_one_start]; [scans_to_average] is what
    [ctl.scan_averaging.get_scans_to_average()] answers. *)
Definition take_one_start (ctl : Controller sample) (scans_to_average : Z)
    (self : t) : list take_one_effect :=
  if enabled self then
    let buffer_ms := 2000 in
    [DarkClear true]
    ++ ignore_timeouts buffer_ms scans_to_average O
         (get_spectrometers (multispec ctl))
    ++ [RefreshLaserButtons (Some true)]
  else [].

Definition take_one_complete : list take_one_effect :=
  [RefreshLaserButtons None].

End TakeOne.

End Feature.

End RamanModeFeature.

(* ================================================================== *)
(** * The enablement flags of the three features together *)
(* ================================================================== *)

Module Enablement.

(** The three features side by side. *)
Record System : Type := mkSystem {
  roi : HorizROIFeature.t;
  trigger : ExternalTriggerFeature.t;
  raman : RamanModeFeature.t
}.

(** The flags that the [update_visibility] methods compute. *)
Record Flags : Type := mkFlags {
  roi_enabled : bool;
  trigger_enabled : bool;
  raman_visible : bool
}.

Definition flags (sys : System) : Flags :=
  mkFlags (HorizROIFeature.enabled (roi sys))
          (ExternalTriggerFeature.enabled (trigger sys))
          (RamanModeFeature.visible (raman sys)).

(** What the device reports of itself. *)
Record Capabilities : Type := mkCapabilities {
  cap_has_horizontal_roi : bool;
  cap_supports_triggering : bool;
  cap_is_micro : bool;
  cap_has_laser : bool
}.

(** The inputs the specification names: the capability flags of the current
    device (None without one), the UI mode and page, and what the user asked
    for before: the ROI request and the trigger source set on the device.
    The two checkboxes are no input: [update_visibility] writes them. *)
Record Inputs : Type := mkInputs {
  capabilities : option Capabilities;
  mode_expert : bool;
  mode_raman : bool;
  mode_paused : bool;
  request_roi : bool;
  request_trigger_source : option Z
}.

Section Flags.

Context {sample : Type}.

Variable TRIGGER_SOURCE_EXTERNAL : Z.

Definition inputs (ctl : Controller sample) (sys : System) : Inputs :=
  let spec := current_spectrometer (multispec ctl) in
  mkInputs
    (option_map
       (fun sp =>
          mkCapabilities (has_horizontal_roi (eeprom (settings sp)))
                         (supports_triggering (settings sp))
                         (is_micro (settings sp))
                         (has_laser (eeprom (settings sp))))
       spec)
    (doing_expert ctl) (doing_raman ctl) (is_paused ctl)
    (HorizROIFeature.user_requested_enabled (roi sys))
    (option_map (fun sp => trigger_source (state (settings sp))) spec).

(** Each feature's [update_visibility], run on its own object. *)
Definition update_visibility (ctl : Controller sample)
    (d : RamanModeFeature.Dialogs) (sys : System) : System :=
  mkSystem
    (fst (HorizROIFeature.update_visibility ctl (roi sys)))
    (ExternalTriggerFeature.update_visibility
       TRIGGER_SOURCE_EXTERNAL (multispec ctl) (trigger sys))
    (fst (fst (RamanModeFeature.update_visibility ctl d (raman sys)))).

End Flags.

End Enablement.

(* ================================================================== *)
(** * Python strings and [os.path] *)
(* ================================================================== *)

Module Str.

(** [s[:n]] *)
Fixpoint take (n : nat) (s : string) : string :=
  match n, s with
  | S n', String c s' => String c (take n' s')
  | _, _ => EmptyString
  end.

(** [s[n:]] *)
Fixpoint drop (n : nat) (s : string) : string :=
  match n, s with
  | S n', String _ s' => drop n' s'
  | _, _ => s
  end.

(** [s[0]] and [s[-1]], when there is one. *)
Definition head (s : string) : option ascii :=
  match s with String c _ => Some c | EmptyString => None end.

Fixpoint last (s : string) : option ascii :=
  match s with
  | EmptyString => None
  | String c EmptyString => Some c
  | String _ s' => last s'
  end.

Definition nonempty (s : string) : bool :=
  match s with EmptyString => false | _ => true end.

(** [c in chars] *)
Definition char_in (chars : list ascii) (c : ascii) : bool :=
  existsb (Ascii.eqb c) chars.

Definition head_in (chars : list ascii) (s : string) : bool :=
  match head s with Some c => char_in chars c | None => false end.

Definition last_in (chars : list ascii) (s : string) : bool :=
  match last s with Some c => char_in chars c | None => false end.

(** [s.replace(a, b)] for single characters. *)
Fixpoint replace (a b : ascii) (s : string) : string :=
  match s with
  | EmptyString => EmptyString
  | String c s' => String (if Ascii.eqb c a then b else c) (replace a b s')
  end.

(** [s.find(c)] for a single character: [None] stands for -1. *)
Fixpoint find (c : ascii) (s : string) : option nat :=
  match s with
  | EmptyString => None
  | String c' s' =>
      if Ascii.eqb c' c then Some O else option_map S (find c s')
  end.

(** [s.find(c, start)] *)
Definition find_from (c : ascii) (start : nat) (s : string) : option nat :=
  if (String.length s <? start)%nat then None
  else option_map (Nat.add start) (find c (drop start s)).

(** [s.lower()] on the ASCII letters. *)
Definition lower_char (c : ascii) : ascii :=
  let n := nat_of_ascii c in
  if ((65 <=? n) && (n <=? 90))%nat then ascii_of_nat (n + 32) else c.

Fixpoint lower (s : string) : string :=
  match s with
  | EmptyString => EmptyString
  | String c s' => String (lower_char c) (lower s')
  end.

(** [s.upper()] on the ASCII letters. *)
Definition upper_char (c : ascii) : ascii :=
  let n := nat_of_ascii c in
  if ((97 <=? n) && (n <=? 122))%nat then ascii_of_nat (n - 32) else c.

Fixpoint upper (s : string) : string :=
  match s with
  | EmptyString => EmptyString
  | String c s' => String (upper_char c) (upper s')
  end.

(** [sub in s] *)
Fixpoint contains (sub s : string) : bool :=
  String.prefix sub s
  || match s with
     | EmptyString => false
     | String _ s' => contains sub s'
     end.

End Str.

(** [posixpath], the [os.path] of every platform but Windows. *)
Module posixpath.

Definition sep : ascii := "/"%char.

Definition join_step (path b : string) : string :=
  if Str.head_in [sep] b then b
  else if negb (Str.nonempty path) || Str.last_in [sep] path
       then (path ++ b)%string
       else (path ++ String sep b)%string.

(** [join(a, *p)] *)
Definition join (a : string) (p : list string) : string :=
  fold_left join_step p a.

End posixpath.

(** [ntpath], the [os.path] of Windows, as CPython 3.9 and 3.10 define it
    (the versions that the type hints of the repository and PySide2 allow). *)
Module ntpath.

Definition sep : ascii := "\"%char.
Definition altsep : ascii := "/"%char.
Definition colon : ascii := ":"%char.
Definition seps : list ascii := [sep; altsep].

(** [splitdrive(p)]: the drive or UNC share, and the rest. *)
Definition splitdrive (p : string) : string * string :=
  if (2 <=? String.length p)%nat then
    let normp := Str.replace altsep sep p in
    if String.eqb (Str.take 2 normp) (String sep (String sep EmptyString))
       && negb (String.eqb (Str.take 1 (Str.drop 2 normp))
                           (String sep EmptyString))
    then
      match Str.find_from sep 2 normp with
      | None => (EmptyString, p)
      | Some index =>
          match Str.find_from sep (index + 1) normp with
          | Some index2 =>
              if (index2 =? index + 1)%nat then (EmptyString, p)
              else (Str.take index2 p, Str.drop index2 p)
          | None =>
              let index2 := String.length p in
              (Str.take index2 p, Str.drop index2 p)
          end
      end
    else if String.eqb (Str.take 1 (Str.drop 1 normp)) (String colon EmptyString)
    then (Str.take 2 p, Str.drop 2 p)
    else (EmptyString, p)
  else (EmptyString, p).

(** One turn of the loop of [join], on [(result_drive, result_path)]. *)
Definition join_step (acc : string * string) (p : string) : string * string :=
  let '(result_drive, result_path) := acc in
  let '(p_drive, p_path) := splitdrive p in
  if Str.head_in seps p_path then
    (if Str.nonempty p_drive || negb (Str.nonempty result_drive)
     then p_drive else result_drive,
     p_path)
  else if Str.nonempty p_drive && negb (String.eqb p_drive result_drive)
          && negb (String.eqb (Str.lower p_drive) (Str.lower result_drive))
  then (p_drive, p_path)
  else
    let result_drive :=
      if Str.nonempty p_drive && negb (String.eqb p_drive result_drive)
      then p_drive else result_drive in
    let result_path :=
      if Str.nonempty result_path && negb (Str.last_in seps result_path)
      then (result_path ++ String sep EmptyString)%string
      else result_path in
    (result_drive, (result_path ++ p_path)%string).

(** [join(path, *paths)] *)
Definition join (path : string) (paths : list string) : string :=
  let '(result_drive, result_path) :=
    fold_left join_step paths (splitdrive path) in
  if Str.nonempty result_path && negb (Str.head_in seps result_path)
     && Str.nonempty result_drive && negb (Str.last_in [colon] result_drive)
  then (result_drive ++ String sep result_path)%string
  else (result_drive ++ result_path)%string.

End ntpath.

(* ================================================================== *)
(** * enlighten/common.py: the views and the operation modes *)
(* ================================================================== *)

(** The IntEnum [Views] and the value of each member. *)
Inductive Views : Type := SCOPE | SETTINGS | HARDWARE | ABSORBANCE.

Definition Views_value (v : Views) : Z :=
  match v with
  | SCOPE => 0
  | SETTINGS => 1
  | HARDWARE => 2
  | ABSORBANCE => 3
  end.

(** The IntEnum [OperationModes]. *)
Inductive OperationModes : Type := RAMAN | NON_RAMAN | EXPERT.

Definition OperationModes_value (m : OperationModes) : Z :=
  match m with
  | RAMAN => 0
  | NON_RAMAN => 1
  | EXPERT => 2
  end.

(** [d.get(n, default)] on a dictionary written as the list of its items. *)
Fixpoint dict_get {V : Type} (d : list (Z * V)) (n : Z) (default : V) : V :=
  match d with
  | [] => default
  | (k, v) :: d' => if k =? n then v else dict_get d' n default
  end.

Module ViewsHelper.

(** The keys are members of an IntEnum, which hash and compare as their
    values do. *)
Definition pretty_names : list (Z * string) :=
  [(Views_value HARDWARE, "Hardware"); (Views_value SCOPE, "Scope")].

Definition get_pretty_name (n : Z) : string :=
  dict_get pretty_names n "UNKNOWN".

(** [parse(s)].  [Views.RAMAN] and [Views.TRANSMISSION] name members that
    the enum does not have: reading them raises AttributeError. *)
Definition parse (s : string) : result Views :=
  let s := Str.upper s in
  if Str.contains "HARDWARE" s then Ok HARDWARE
  else if Str.contains "SCOPE" s then Ok SCOPE
  else if Str.contains "RAMAN" s then Raise (AttributeError "RAMAN")
  else if Str.contains "ABS" s then Ok ABSORBANCE
  else if Str.contains "TRANS" s || Str.contains "REFL" s
  then Raise (AttributeError "TRANSMISSION")
  else Ok SCOPE.

End ViewsHelper.

Module OperationModesHelper.

(** [parse(s)].  [OperationModes] has neither [SETUP] nor [CAPTURE]. *)
Definition parse (s : string) : result OperationModes :=
  let s := Str.upper s in
  if Str.contains "SETUP" s then Raise (AttributeError "SETUP")
  else if Str.contains "CAPTURE" s then Raise (AttributeError "CAPTURE")
  else Raise (AttributeError "SETUP").

End OperationModesHelper.

(* ================================================================== *)
(** * enlighten/common.py and enlighten/CloudManager.py *)
(* ================================================================== *)

(** The credentials of [response_cred["Credentials"]]. *)
Record Credentials : Type := mkCredentials {
  AccessKeyId : string;
  SecretKey : string;
  SessionToken : string
}.

(** Everything outside the program that the cloud restore consults: the
    platform, the environment, the user at the dialog, the identity service,
    the storage bucket and the EEPROM editor.  A call that can fail answers
    with a [result]. *)
Record World : Type := mkWorld {
  (* os.name *)
  os_name : string;
  (* os.environ.get("HOME") *)
  environ_HOME : option string;
  (* os.path.expanduser("~") *)
  expanduser_home : string;
  (* QInputDialog().getText(...) *)
  getText : string * bool;
  (* boto3.client("cognito-identity", ...) *)
  cognito_client : result unit;
  (* client.get_id(IdentityPoolId=...)["IdentityId"] *)
  get_id : string -> result string;
  (* client.get_credentials_for_identity(IdentityId=...)["Credentials"] *)
  get_credentials_for_identity : string -> result Credentials;
  (* Bucket(bucket).download_file(key, local_file) *)
  download_file : string -> string -> string -> result unit;
  (* eeprom_editor.import_eeprom(file_name=...) *)
  import_eeprom : string -> result bool
}.

(** [os.path.join] of the running platform. *)
Definition os_path_join (w : World) (a : string) (p : list string) : string :=
  if String.eqb (os_name w) "nt" then ntpath.join a p else posixpath.join a p.

(** [os.environ["HOME"]] *)
Definition environ_get_HOME (w : World) : result string :=
  match environ_HOME w with
  | Some h => Ok h
  | None => Raise (KeyError "HOME")
  end.

(** common.py *)
Definition get_default_data_dir (w : World) : result string :=
  (if String.eqb (os_name w) "nt"
   then Ok (os_path_join w (expanduser_home w) ["Documents"; "EnlightenSpectra"])
   else home <- environ_get_HOME w ;;
        Ok (os_path_join w home ["EnlightenSpectra"]))%py.

(** ** Vocabulary of the properties of the data directory *)

Definition is_nt (w : World) : bool := String.eqb (os_name w) "nt".

(** The separator [os.path.join] puts between two components. *)
Definition os_sep (w : World) : ascii :=
  if is_nt w then ntpath.sep else posixpath.sep.

(** A path written component by component: [a/b/c] with the separator of
    the platform. *)
Definition path_of (w : World) (parts : list string) : string :=
  String.concat (String (os_sep w) EmptyString) parts.

(** The user's home: [~] on Windows, [$HOME] elsewhere. *)
Definition home_dir (w : World) : option string :=
  if is_nt w then Some (expanduser_home w) else environ_HOME w.

(** The components of the data directory under the home [h]. *)
Definition data_dir_parts (w : World) (h : string) : list string :=
  if is_nt w then [h; "Documents"; "EnlightenSpectra"]
  else [h; "EnlightenSpectra"].

(** A directory name that the join can extend by a separator: not empty and
    not ending in a separator (or, on Windows, in the colon of a drive). *)
Definition plain_dir (w : World) (h : string) : bool :=
  Str.nonempty h
  && negb (Str.last_in
             (if is_nt w then ntpath.colon :: ntpath.seps else [posixpath.sep])
             h).

(** A serial number that names a file relative to a directory: it does not
    begin with a separator, nor, on Windows, with a drive letter and its
    colon. *)
Definition relative_serial (w : World) (serial_number : string) : bool :=
  if is_nt w
  then negb (Str.head_in ntpath.seps serial_number)
       && negb (Str.head_in [ntpath.colon] (Str.drop 1 serial_number))
  else negb (Str.head_in [posixpath.sep] serial_number).

(** The manager as [__init__] builds it when the keys are there; without
    them ([DISABLED]) the restore button is never connected and
    [perform_restore] never runs. *)
Module CloudManager.

Inductive Icon : Type := NoIcon | Critical.

(** The [QMessageBox] kept in [self.result_message]. *)
Record MessageBox : Type := mkMessageBox {
  text : string;
  icon : Icon
}.

(** [boto3.Session(...)] *)
Record Session : Type := mkSession {
  aws_access_key_id : string;
  aws_secret_access_key : string;
  aws_session_token : string
}.

(** The attributes of [self]; [None] for one not assigned yet. *)
Record t : Type := mk {
  result_message : MessageBox;
  session : option Session;
  eeprom_bucket : option string
}.

(** What the manager does that the user or the outside can observe. *)
Inductive event : Type :=
| Exec (shown : MessageBox)                          (* result_message.exec_() *)
| DownloadFile (bucket key local_file : string)
| ImportEeprom (file_name : string).

(** Methods run over the manager and the log of events; both survive an
    exception. *)
Definition M (A : Type) : Type := t * list event -> result A * (t * list event).

Definition ret {A} (a : A) : M A := fun s => (Ok a, s).

Definition raise {A} (e : exn) : M A := fun s => (Raise e, s).

Definition bind {A B} (m : M A) (k : A -> M B) : M B :=
  fun s =>
    match m s with
    | (Ok a, s') => k a s'
    | (Raise e, s') => (Raise e, s')
    end.

(** [try: body except Exception as e: handler] *)
Definition try_except {A} (body : M A) (handler : exn -> M A) : M A :=
  fun s =>
    match body s with
    | (Ok a, s') => (Ok a, s')
    | (Raise e, s') => handler e s'
    end.

Definition lift {A} (r : result A) : M A := fun s => (r, s).

Definition get : M t := fun s => (Ok (fst s), s).

Definition put (self : t) : M unit := fun s => (Ok tt, (self, snd s)).

Definition emit (e : event) : M unit :=
  fun s => (Ok tt, (fst s, snd s ++ [e])).

Declare Scope cloud_scope.
Delimit Scope cloud_scope with cloud.
Notation "x <- c ;; k" := (bind c (fun x => k))
  (at level 61, c at next level, right associativity) : cloud_scope.
Notation "c ;; k" := (bind c (fun _ => k))
  (at level 61, right associativity) : cloud_scope.

Local Open Scope cloud_scope.

Definition setText (s : string) : M unit :=
  self <- get ;;
  put (mk (mkMessageBox s (icon (result_message self)))
          (session self) (eeprom_bucket self)).

Definition setIcon (i : Icon) : M unit :=
  self <- get ;;
  put (mk (mkMessageBox (text (result_message self)) i)
          (session self) (eeprom_bucket self)).

Definition exec_ : M unit :=
  self <- get ;; emit (Exec (result_message self)).

Section Manager.

(** The identity pool of [keys.py], which is not part of the repository. *)
Variable ID_POOL_ID : string.

Variable w : World.

Definition prompt_for_serial : M (option string) :=
  let '(text, ok) := getText w in
  if negb ok then ret None else ret (Some text).

Definition create_session : M Session :=
  _ <- lift (cognito_client w) ;;
  IdentityId <- lift (get_id w ID_POOL_ID) ;;
  response_cred <- lift (get_credentials_for_identity w IdentityId) ;;
  let access_id := AccessKeyId response_cred in
  let access_secret := SecretKey response_cred in
  let access_session := SessionToken response_cred in
  ret (mkSession access_id access_secret access_session).

Definition setup_connection : M unit :=
  s <- create_session ;;
  self <- get ;;
  put (mk (result_message self) (Some s) (Some "eeprom-factory-files")).

(** [self.eeprom_bucket.download_file(key, local_file)] *)
Definition bucket_download_file (key local_file : string) : M unit :=
  self <- get ;;
  match eeprom_bucket self with
  | None => raise (AttributeError "eeprom_bucket")
  | Some b =>
      emit (DownloadFile b key local_file) ;;
      lift (download_file w b key local_file)
  end.

(** The [except] branch of [attempt_download]. *)
Definition download_failed (local_file : string) : M (string * bool) :=
  setText "Error retrieving EEPROM file from server." ;;
  setIcon Critical ;;
  exec_ ;;
  ret (local_file, false).

(** Both statements of the [try] body can raise; [local_file] still holds
    [''] when the first one does. *)
Definition attempt_download (serial_number : string) : M (string * bool) :=
  let local_file := EmptyString in
  match get_default_data_dir w with
  | Raise e => download_failed local_file
  | Ok data_dir =>
      let local_file :=
        os_path_join w data_dir
          ["eeprom_backups"; (serial_number ++ ".json")%string] in
      try_except
        (bucket_download_file (serial_number ++ ".json")%string local_file ;;
         ret (local_file, true))
        (fun e => download_failed local_file)
  end.

Definition eeprom_editor_import_eeprom (file_name : string) : M bool :=
  emit (ImportEeprom file_name) ;;
  lift (import_eeprom w file_name).

Definition perform_restore : M unit :=
  serial_number <- prompt_for_serial ;;
  setup_connection ;;
  match serial_number with
  | None => ret tt
  | Some serial_number =>
      r <- attempt_download serial_number ;;
      let '(local_file, download_result) := r in
      if download_result then
        import_result <- eeprom_editor_import_eeprom local_file ;;
        (if negb import_result then
           setText "EEPROM Writing Error." ;;
           setIcon Critical ;;
           exec_
         else ret tt) ;;
        setText "EEPROM Restore successful." ;;
        setIcon NoIcon ;;
        exec_
      else ret tt
  end.

End Manager.

(** ** Vocabulary of the properties of the restore *)

(** The credential exchange goes through. *)
Definition session_ok (ID_POOL_ID : string) (w : World) : Prop :=
  exists IdentityId cred,
    cognito_client w = Ok tt
    /\ get_id w ID_POOL_ID = Ok IdentityId
    /\ get_credentials_for_identity w IdentityId = Ok cred.

(** The download of the backup of [serial_number] goes through, into
    [local_file]. *)
Definition download_ok (w : World) (serial_number local_file : string) : Prop :=
  exists data_dir,
    get_default_data_dir w = Ok data_dir
    /\ local_file
       = os_path_join w data_dir
           ["eeprom_backups"; (serial_number ++ ".json")%string]
    /\ download_file w "eeprom-factory-files"
         (serial_number ++ ".json")%string local_file = Ok tt.

Definition writing_error : MessageBox :=
  mkMessageBox "EEPROM Writing Error." Critical.

Definition restore_successful : MessageBox :=
  mkMessageBox "EEPROM Restore successful." NoIcon.

Definition retrieving_error : MessageBox :=
  mkMessageBox "Error retrieving EEPROM file from server." Critical.

(** [__init__]: the message box is created with Qt's defaults. *)
Definition init : t := mk (mkMessageBox EmptyString NoIcon) None None.

(** The message boxes a run showed, in order. *)
Definition shown (log : list event) : list MessageBox :=
  flat_map (fun e => match e with Exec m => [m] | _ => [] end) log.

End CloudManager.

(* ================================================================== *)
(** * enlighten/ui/Marquee.py *)
(* ================================================================== *)

Module Marquee.

Import PrimFloat.

Definition ORIG_HEIGHT : Z := 36.
Definition DRAWER_DURATION_MS : Z := 3000.
Definition TOAST_DURATION_MS : Z := 3000.
Definition TOAST_FADE_STEP_MS : Z := 75.

(** Python reads [0.05] as the binary64 number closest to it, and so does
    the literal here. *)
#[local] Set Warnings "-inexact-float".
Definition TOAST_FADE_STEP_OPACITY_PERCENT : float := 0.05%float.
#[local] Set Warnings "inexact-float".

(** A single-shot [QTimer]: [Some ms] while it runs, started with [ms]. *)
Definition Timer : Type := option Z.

(** The [QMessageBox] of a toast. *)
Record Dialog : Type := mkDialog {
  dialog_text : string;
  dialog_critical : bool              (* the icon: Critical, else Information *)
}.

(** The attributes of [self], with the widgets as far as the class drives
    them: the text of the label and the opacity of the effect on the frame. *)
Record t : Type := mk {
  label : string;
  frame_opacity : Z;
  showing_something : bool;
  persist : bool;
  last_token : option string;
  link : option string;
  extra_ms : Z;
  clear_timer : Timer;
  toast_timer : Timer;
  toast_dialog : option Dialog;
  toast_opacity : float
}.

(** Calls that leave the object, in call order. *)
Inductive event : Type :=
| SetBenign (benign : bool)           (* stylesheets.set_benign(inner, benign) *)
| ApplyDefaultCss                     (* stylesheets.apply(inner, default_css, raw=True) *)
| ProcessEvents                       (* app.processEvents() *)
| DialogExec (d : Dialog)
| DialogSetWindowOpacity (o : float)
| DialogClose
| WebbrowserOpen (link : string).

Definition with_label (self : t) (x : string) : t :=
  mk x (frame_opacity self) (showing_something self) (persist self)
     (last_token self) (link self) (extra_ms self) (clear_timer self)
     (toast_timer self) (toast_dialog self) (toast_opacity self).

Definition with_clear_timer (self : t) (x : Timer) : t :=
  mk (label self) (frame_opacity self) (showing_something self) (persist self)
     (last_token self) (link self) (extra_ms self) x
     (toast_timer self) (toast_dialog self) (toast_opacity self).

Definition with_toast (self : t) (timer : Timer) (dialog : option Dialog)
    (opacity : float) : t :=
  mk (label self) (frame_opacity self) (showing_something self) (persist self)
     (last_token self) (link self) (extra_ms self) (clear_timer self)
     timer dialog opacity.

(** [show] and [hide] *)
Definition show (self : t) : t :=
  mk (label self) 1 true (persist self)
     (last_token self) (link self) (extra_ms self) (clear_timer self)
     (toast_timer self) (toast_dialog self) (toast_opacity self).

Definition hide (self : t) : t :=
  mk EmptyString 0 false (persist self)
     (last_token self) (link self) (extra_ms self) (clear_timer self)
     (toast_timer self) (toast_dialog self) (toast_opacity self).

(** [__init__]: the fields as assigned, after the [hide] of the drawer. *)
Definition init : t :=
  mk EmptyString 0 false false None None 0 None None None 1%float.

Definition stop (self : t) : t :=
  with_clear_timer (with_toast self None (toast_dialog self) (toast_opacity self))
    None.

Definition reset_timers (self : t) : t := with_clear_timer self None.

(** [schedule_clear(immediate=False)] *)
Definition schedule_clear (immediate : bool) (self : t) : t :=
  let self := reset_timers self in
  if immediate then hide self
  else if negb (persist self)
       then with_clear_timer self (Some (DRAWER_DURATION_MS + extra_ms self))
       else self.

Definition close_callback (self : t) : t := schedule_clear true self.

(** [show_immediate(benign=None)] *)
Definition show_immediate (benign : option bool) (self : t) : t * list event :=
  let self := with_clear_timer self None in
  let style :=
    match benign with
    | Some b => SetBenign b
    | None => ApplyDefaultCss
    end in
  (schedule_clear false self, [style; ProcessEvents]).

(** [info(msg, persist, token, benign, immediate, extra_ms, period_sec,
    link)]: [immediate] is ignored by the method and left out; [period_sec]
    is a whole number of seconds. *)
Definition info (msg : option string) (persist : bool) (token : option string)
    (benign : option bool) (extra_ms : Z) (period_sec : option Z)
    (link : option string) (self : t) : t * list event :=
  match msg with
  | None => (self, [])
  | Some msg =>
      let self := reset_timers self in
      let self :=
        mk (label self) (frame_opacity self) (showing_something self)
           persist token link extra_ms (clear_timer self)
           (toast_timer self) (toast_dialog self) (toast_opacity self) in
      let self :=
        match period_sec with
        | Some period_sec =>
            if period_sec * 1000 >? DRAWER_DURATION_MS
            then mk (label self) (frame_opacity self) (showing_something self)
                    (Marquee.persist self) (last_token self) (Marquee.link self)
                    (period_sec * 1000 - DRAWER_DURATION_MS)
                    (clear_timer self)
                    (toast_timer self) (toast_dialog self) (toast_opacity self)
            else self
        | None => self
        end in
      let self := with_label self msg in
      let self := show self in
      show_immediate benign self
  end.

(** [error(msg, persist, token, benign, immediate, extra_ms)]: the link of
    the message before is not touched. *)
Definition error (msg : option string) (persist : bool) (token : option string)
    (benign : option bool) (extra_ms : Z) (self : t) : t * list event :=
  match msg with
  | None => (self, [])
  | Some msg =>
      let self := reset_timers self in
      let self :=
        mk (label self) (frame_opacity self) (showing_something self)
           persist token (link self) extra_ms (clear_timer self)
           (toast_timer self) (toast_dialog self) (toast_opacity self) in
      let self := with_label self msg in
      let self := show self in
      show_immediate benign self
  end.

(** A string is true unless it is empty. *)
Definition truthy_str (x : option string) : bool :=
  match x with
  | Some s => Str.nonempty s
  | None => false
  end.

Definition token_eqb (a b : option string) : bool :=
  match a, b with
  | Some x, Some y => String.eqb x y
  | None, None => true
  | _, _ => false
  end.

(** [clear(token=None, force=False)] *)
Definition clear (token : option string) (force : bool) (self : t) : t :=
  if force || negb (persist self)
     || (truthy_str token && token_eqb token (last_token self))
  then schedule_clear true self
  else self.

Definition tick_clear (self : t) : t := hide self.

(** The clear timer runs out: a single-shot timer stops, then its slot
    [tick_clear] runs.  Nothing happens while the timer is stopped. *)
Definition clear_timer_timeout (self : t) : t :=
  match clear_timer self with
  | Some _ => tick_clear (with_clear_timer self None)
  | None => self
  end.

Definition link_activated_callback (link : string) : list event :=
  [WebbrowserOpen link].

(** [toast(msg, persist=False, error=False)] *)
Definition toast (msg : string) (persist error : bool) (self : t)
  : t * list event :=
  let dialog := mkDialog msg error in
  let self :=
    if negb (persist || error)
    then with_toast self (Some TOAST_DURATION_MS) (Some dialog) 1%float
    else self in
  (self, [DialogExec dialog]).

(** [fade_toast].  [qt_raises] tells whether the call on the dialog or on the
    timer that this turn makes raises (the dialog may be gone already); the
    bare [except] then forgets the dialog. *)
Definition fade_toast (qt_raises : bool) (self : t) : t * list event :=
  match toast_dialog self with
  | None => (self, [])
  | Some _ =>
      let opacity := (toast_opacity self - TOAST_FADE_STEP_OPACITY_PERCENT)%float in
      let self := with_toast self (toast_timer self) (toast_dialog self) opacity in
      if qt_raises
      then (with_toast self (toast_timer self) None opacity, [])
      else if (0 <? opacity)%float
      then (with_toast self (Some TOAST_FADE_STEP_MS) (toast_dialog self) opacity,
            [DialogSetWindowOpacity opacity])
      else (with_toast self (toast_timer self) None opacity, [DialogClose])
  end.

(** The toast timer runs out: it stops, then its slot [fade_toast] runs. *)
Definition toast_timer_timeout (qt_raises : bool) (self : t) : t * list event :=
  match toast_timer self with
  | Some _ =>
      fade_toast qt_raises
        (with_toast self None (toast_dialog self) (toast_opacity self))
  | None => (self, [])
  end.

(** ** Vocabulary of the properties *)

(** The states that the public face of the class leads to from [__init__]:
    the messages, the toasts, the clearing calls and the two timers running
    out. *)
Inductive reachable : t -> Prop :=
| reach_init : reachable init
| reach_info msg persist token benign extra_ms period_sec link self :
    reachable self ->
    reachable (fst (info msg persist token benign extra_ms period_sec link self))
| reach_error msg persist token benign extra_ms self :
    reachable self ->
    reachable (fst (error msg persist token benign extra_ms self))
| reach_clear token force self :
    reachable self -> reachable (clear token force self)
| reach_close_callback self :
    reachable self -> reachable (close_callback self)
| reach_clear_timer_timeout self :
    reachable self -> reachable (clear_timer_timeout self)
| reach_stop self :
    reachable self -> reachable (stop self)
| reach_toast msg persist error self :
    reachable self -> reachable (fst (toast msg persist error self))
| reach_toast_timer_timeout qt_raises self :
    reachable self -> reachable (fst (toast_timer_timeout qt_raises self)).

(** A drawer in order: hidden, it shows no text and waits for no timer;
    shown, it is opaque; and a running clear timer belongs to a message that
    is not persistent and was started with the drawer's duration and the
    extra time of the message. *)
Definition drawer_in_order (self : t) : Prop :=
  (showing_something self = false ->
   label self = EmptyString /\ frame_opacity self = 0
   /\ clear_timer self = None)
  /\ (showing_something self = true -> frame_opacity self = 1)
  /\ (forall ms, clear_timer self = Some ms ->
        showing_something self = true /\ persist self = false
        /\ ms = DRAWER_DURATION_MS + extra_ms self).

(** The opacity of a toast after [k] turns of the fade. *)
Fixpoint fade_opacity (k : nat) : float :=
  match k with
  | O => 1%float
  | S k' => (fade_opacity k' - TOAST_FADE_STEP_OPACITY_PERCENT)%float
  end.

(** A toast in the [k]-th turn of its fade: the timer runs, the dialog [d]
    is kept, and the opacity was lowered [k] times. *)
Definition fading (self : t) (k : nat) (d : Dialog) : Prop :=
  (exists ms, toast_timer self = Some ms)
  /\ toast_dialog self = Some d
  /\ toast_opacity self = fade_opacity k.

(** The toast timer running out again and again; [raises] tells turn by turn
    whether the call on the dialog raises. *)
Fixpoint toast_timer_timeouts (raises : list bool) (self : t) : t :=
  match raises with
  | [] => self
  | r :: raises' =>
      toast_timer_timeouts raises' (fst (toast_timer_timeout r self))
  end.

End Marquee.

(* ================================================================== *)
(** * Two platforms and a connected manager, for the examples *)
(* ================================================================== *)

Definition posix_world : World :=
  mkWorld "posix" (Some "/home/u") "/home/u" ("WP-00123", true)
          (Ok tt) (fun _ => Ok "id")
          (fun _ => Ok (mkCredentials "key" "secret" "token"))
          (fun _ _ _ => Ok tt) (fun _ => Ok true).

Definition nt_world : World :=
  mkWorld "nt" None "C:\Users\u" ("WP-00123", true)
          (Ok tt) (fun _ => Ok "id")
          (fun _ => Ok (mkCredentials "key" "secret" "token"))
          (fun _ _ _ => Ok tt) (fun _ => Ok true).

(** The user cancels the prompt. *)
Definition cancelling_world : World :=
  mkWorld "posix" (Some "/home/u") "/home/u" ("", false)
          (Ok tt) (fun _ => Ok "id")
          (fun _ => Ok (mkCredentials "key" "secret" "token"))
          (fun _ _ _ => Ok tt) (fun _ => Ok true).

(** The bucket holds no such object. *)
Definition missing_object_world : World :=
  mkWorld "posix" (Some "/home/u") "/home/u" ("WP-00123", true)
          (Ok tt) (fun _ => Ok "id")
          (fun _ => Ok (mkCredentials "key" "secret" "token"))
          (fun _ _ _ => Raise (ClientError "404")) (fun _ => Ok true).

(** The environment holds no [HOME]. *)
Definition homeless_world : World :=
  mkWorld "posix" None "~" ("WP-00123", true)
          (Ok tt) (fun _ => Ok "id")
          (fun _ => Ok (mkCredentials "key" "secret" "token"))
          (fun _ _ _ => Ok tt) (fun _ => Ok true).

Definition connected : CloudManager.t :=
  CloudManager.mk (CloudManager.mkMessageBox "" CloudManager.NoIcon)
    (Some (CloudManager.mkSession "key" "secret" "token"))
    (Some "eeprom-factory-files").

(* ================================================================== *)
(** * Properties of the slice and of the ROI *)
(* ================================================================== *)

Section SliceFacts.

Context {A : Type}.

Lemma slice_bound_in_range (n i : Z) :
  0 <= i <= n -> slice_bound n i = i.
Proof.
  intros H. unfold slice_bound.
  destruct (i <? 0) eqn:E; [apply Z.ltb_lt in E; lia | lia].
Qed.

Lemma slice_length (l : list A) (i j : Z) :
  0 <= i <= j -> j <= len l -> len (slice l i j) = j - i.
Proof.
  intros Hij Hj. unfold slice.
  rewrite !slice_bound_in_range by lia.
  unfold len in *. rewrite List.length_firstn, List.length_skipn. lia.
Qed.

(** Element [k] of [l[i:j]] is element [i + k] of [l]. *)
Lemma slice_nth_error (l : list A) (i j k : Z) :
  0 <= i <= j -> j <= len l -> 0 <= k < j - i ->
  nth_error (slice l i j) (Z.to_nat k) = nth_error l (Z.to_nat (i + k)).
Proof.
  intros Hij Hj Hk. unfold slice.
  rewrite !slice_bound_in_range by lia.
  rewrite nth_error_firstn.
  assert (E : (Z.to_nat k <? Z.to_nat (j - i))%nat = true)
    by (apply Nat.ltb_lt; lia).
  rewrite E, nth_error_skipn. f_equal. lia.
Qed.

Lemma slice_whole (l : list A) : slice l 0 (len l) = l.
Proof.
  unfold slice. rewrite !slice_bound_in_range by (unfold len; lia).
  simpl. rewrite Z.sub_0_r. unfold len. rewrite Nat2Z.id.
  apply firstn_all.
Qed.

End SliceFacts.

Lemma ROI_valid_iff (roi : ROI) :
  ROI_valid roi = true <-> 0 <= start roi < end_ roi.
Proof.
  unfold ROI_valid. rewrite andb_true_iff, Z.leb_le, Z.ltb_lt. tauto.
Qed.

(* ================================================================== *)
(** * HorizROIFeature.crop *)
(* ================================================================== *)

Section CropFacts.

Context {sample A : Type}.
Implicit Types (ctl : Controller sample) (spectrum : list A) (roi : ROI).

Import HorizROIFeature.

(** The guard of [crop], as a proposition. *)
Lemma crop_guard_false roi (n : Z) :
  negb (ROI_valid roi) || (start roi >=? n) || (end_ roi >=? n) = false
  <-> start roi < end_ roi /\ in_bounds n (start roi) /\ in_bounds n (end_ roi).
Proof.
  unfold in_bounds.
  rewrite !orb_false_iff, negb_false_iff, ROI_valid_iff.
  rewrite !Z.geb_leb, !Z.leb_gt. lia.
Qed.

(** [crop] is the lookup of the ROI followed by the guarded slice. *)
Lemma crop_eq ctl spectrum spec r settings :
  crop ctl (Some spectrum) spec r settings =
  (roi <- roi_lookup ctl spec r settings ;;
   match roi with
   | None => Ok (Some spectrum)
   | Some roi =>
       if negb (ROI_valid roi)
          || (start roi >=? len spectrum) || (end_ roi >=? len spectrum)
       then Ok (Some spectrum)
       else Ok (Some (ROI_crop roi spectrum))
   end)%py.
Proof.
  unfold crop, roi_lookup.
  destruct (is_None r && truthy settings); simpl.
  - destruct (settings_of spec) as [s|e]; simpl; [|reflexivity].
    destruct (is_None (get_horizontal_roi (eeprom s)) && truthy spec); simpl.
    + destruct (settings_of spec); reflexivity.
    + reflexivity.
  - destruct (is_None r && truthy spec); simpl.
    + destruct (settings_of spec); reflexivity.
    + reflexivity.
Qed.

(** A ROI handed to [crop] is the one it uses. *)
Lemma roi_lookup_given ctl spec roi settings :
  roi_lookup ctl spec (Some roi) settings = Ok (Some roi).
Proof. reflexivity. Qed.

(** C2, as amended.  For a non-None array and a ROI with [start < end]
    whose two ends are pixel indices of the array ([0 <= start] and
    [end < len(array)]: an end equal to the length is not one), [crop]
    returns [array[start:end]]: it has [end - start] elements, and its
    element [k] is element [start + k] of the array. *)
Theorem crop_in_bounds ctl spectrum spec r settings roi :
  roi_lookup ctl spec r settings = Ok (Some roi) ->
  start roi < end_ roi ->
  in_bounds (len spectrum) (start roi) ->
  in_bounds (len spectrum) (end_ roi) ->
  crop ctl (Some spectrum) spec r settings
    = Ok (Some (slice spectrum (start roi) (end_ roi)))
  /\ len (slice spectrum (start roi) (end_ roi)) = end_ roi - start roi
  /\ (forall k, 0 <= k < end_ roi - start roi ->
        nth_error (slice spectrum (start roi) (end_ roi)) (Z.to_nat k)
        = nth_error spectrum (Z.to_nat (start roi + k))).
Proof.
  intros Hroi Hlt Hs He.
  assert (G := proj2 (crop_guard_false roi (len spectrum)) (conj Hlt (conj Hs He))).
  unfold in_bounds in *.
  repeat split.
  - rewrite crop_eq, Hroi. simpl. rewrite G. reflexivity.
  - apply slice_length; lia.
  - intros k Hk. apply slice_nth_error; lia.
Qed.


(** The boundary the guard draws: a ROI that ends exactly at the length of
    the array is refused, and the array comes back whole. *)
Lemma crop_end_at_len ctl spectrum roi :
  end_ roi = len spectrum ->
  crop ctl (Some spectrum) None (Some roi) None = Ok (Some spectrum).
Proof.
  intros E. rewrite crop_eq, roi_lookup_given. simpl.
  assert (G : (end_ roi >=? len spectrum) = true)
    by (rewrite Z.geb_leb; apply Z.leb_le; lia).
  rewrite G, orb_true_r. reflexivity.
Qed.

(** C3.  When the lookups end without a ROI, or with one that is invalid for
    the array (an end outside the pixel indices of the array, or
    [start >= end]), [crop] returns the array it was given. *)
Theorem crop_identity ctl spectrum spec r settings :
  roi_lookup ctl spec r settings = Ok None
  \/ (exists roi,
        roi_lookup ctl spec r settings = Ok (Some roi)
        /\ (~ in_bounds (len spectrum) (start roi)
            \/ ~ in_bounds (len spectrum) (end_ roi)
            \/ start roi >= end_ roi)) ->
  crop ctl (Some spectrum) spec r settings = Ok (Some spectrum).
Proof.
  intros [Hnone | [roi [Hroi Hbad]]]; rewrite crop_eq.
  - rewrite Hnone. reflexivity.
  - rewrite Hroi. simpl.
    destruct (negb (ROI_valid roi) || (start roi >=? len spectrum)
              || (end_ roi >=? len spectrum)) eqn:G; [reflexivity|].
    apply crop_guard_false in G. unfold in_bounds in *. lia.
Qed.


(** An absent array is answered with [None], whatever the other arguments. *)
Lemma crop_None ctl spec r settings :
  crop (A := A) ctl None spec r settings = Ok None.
Proof. reflexivity. Qed.

(** C4.  The call [crop(spectrum, settings=settings)] with [settings] given
    and neither [spec] nor [roi]: the first lookup reads [spec.settings] of
    the absent [spec] and the call ends in an AttributeError. *)
Theorem crop_settings_without_spec_raises ctl spectrum
    (settings : SpectrometerSettings sample) :
  crop ctl (Some spectrum) None None (Some settings)
  = Raise (AttributeError "settings").
Proof. reflexivity. Qed.

(** Every other call of [crop] returns. *)
Lemma crop_returns_otherwise ctl (spectrum : option (list A)) spec r sett :
  ~ (spec = None /\ r = None /\ sett <> None /\ spectrum <> None) ->
  exists v, crop ctl spectrum spec r sett = Ok v.
Proof.
  intros H. destruct spectrum as [spectrum|]; [|eexists; reflexivity].
  rewrite crop_eq.
  assert (L : exists o, roi_lookup ctl spec r sett = Ok o).
  { unfold roi_lookup.
    destruct r as [roi|]; [eexists; reflexivity|].
    destruct spec as [sp|].
    - destruct sett; simpl;
        destruct (get_horizontal_roi (eeprom (settings sp)));
        simpl; try (eexists; reflexivity);
        destruct (current_spectrometer (multispec ctl)); simpl;
        eexists; reflexivity.
    - destruct sett as [st|].
      + exfalso. apply H. repeat split; congruence.
      + simpl. destruct (current_spectrometer (multispec ctl)); simpl;
          eexists; reflexivity. }
  destruct L as [o L]. rewrite L. simpl.
  destruct o as [roi|]; [|eexists; reflexivity].
  destruct (negb (ROI_valid roi) || _ || _); eexists; reflexivity.
Qed.

End CropFacts.

Lemma crop_in_bounds_witness :
  HorizROIFeature.crop (sample := Z)
    (mkCtl (mkMultispec None []) false false false)
    (Some [10; 20; 30; 40; 50]) None (Some (mkROI 1 3)) None
  = Ok (Some [20; 30]).
Proof.
  apply (crop_in_bounds (mkCtl (mkMultispec None []) false false false)
           [10; 20; 30; 40; 50] None (Some (mkROI 1 3)) None (mkROI 1 3));
    [reflexivity | simpl; lia
    | unfold in_bounds, len; simpl; lia
    | unfold in_bounds, len; simpl; lia].
Defined.

(** C2, as stated, fails.  A ROI that ends exactly at the length of the
    array lies within the bounds of the half-open range [array[start:end]],
    but the guard of [crop] tests [roi.end >= orig_len] and refuses it: the
    five elements come back whole, not the four of [array[1:5]]. *)
Lemma crop_in_bounds_counterexample :
  let ctl : Controller Z := mkCtl (mkMultispec None []) false false false in
  let spectrum := [10; 20; 30; 40; 50] in
  let roi := mkROI 1 5 in
  let cropped := HorizROIFeature.crop ctl (Some spectrum) None (Some roi) None in
  start roi < end_ roi
  /\ 0 <= start roi <= len spectrum
  /\ 0 <= end_ roi <= len spectrum
  /\ slice spectrum (start roi) (end_ roi) = [20; 30; 40; 50]
  /\ cropped = Ok (Some spectrum)
  /\ cropped <> Ok (Some (slice spectrum (start roi) (end_ roi)))
  /\ (forall l, cropped = Ok (Some l) -> len l <> end_ roi - start roi).
Proof.
  cbv zeta. repeat split; try (vm_compute; congruence).
  intros l H. vm_compute in H. injection H as <-. vm_compute. discriminate.
Qed.

Lemma crop_identity_witness :
  HorizROIFeature.crop (sample := Z)
    (mkCtl (mkMultispec None []) false false false)
    (Some [10; 20; 30]) None None None
  = Ok (Some [10; 20; 30])
  /\ HorizROIFeature.crop (sample := Z)
       (mkCtl (mkMultispec None []) false false false)
       (Some [10; 20; 30]) None (Some (mkROI 2 7)) None
     = Ok (Some [10; 20; 30]).
Proof.
  split.
  - apply crop_identity. left. reflexivity.
  - apply crop_identity. right. exists (mkROI 2 7). split; [reflexivity|].
    right. left. unfold in_bounds, len. simpl. lia.
Defined.

(* ================================================================== *)
(** * HorizROIFeature.process *)
(* ================================================================== *)

Section ProcessFacts.

Context {sample : Type}.
Implicit Types (ctl : Controller sample) (p q : ProcessedReading sample)
  (s : SpectrometerSettings sample) (roi : ROI).

Import HorizROIFeature.

(** With the ROI handed over, [crop] cannot raise. *)
Lemma crop_given_roi {A} ctl (x : option (list A)) roi :
  crop ctl x None (Some roi) None = Ok (option_map (crop_to roi) x).
Proof.
  destruct x as [spectrum|]; [|reflexivity].
  rewrite crop_eq, roi_lookup_given. unfold crop_to. simpl.
  destruct (negb (ROI_valid roi) || _ || _); reflexivity.
Qed.

Lemma crop_to_in_bounds {A} roi (spectrum : list A) :
  start roi < end_ roi ->
  in_bounds (len spectrum) (start roi) ->
  in_bounds (len spectrum) (end_ roi) ->
  crop_to roi spectrum = slice spectrum (start roi) (end_ roi).
Proof.
  intros Hlt Hs He. unfold crop_to.
  rewrite (proj2 (crop_guard_false roi (len spectrum))) by auto.
  reflexivity.
Qed.

(** The path of [process] that crops. *)
Lemma process_crops ctl self p sett s roi :
  enabled self = true ->
  processed p <> None ->
  settings_lookup ctl p sett = Some s ->
  get_horizontal_roi (eeprom s) = Some roi ->
  process ctl self (Some p) sett
  = Ok (Some (set_cropped p (cropped_bundle p s roi))).
Proof.
  intros He Hp Hs Hroi.
  assert (Np : is_None (processed p) = false)
    by (destruct (processed p); [reflexivity | congruence]).
  assert (L : (if is_None (if is_None sett then pr_settings p else sett)
               then match current_spectrometer (multispec ctl) with
                    | Some spec => Some (settings_attr spec)
                    | None => if is_None sett then pr_settings p else sett
                    end
               else if is_None sett then pr_settings p else sett) = Some s).
  { unfold settings_lookup in Hs.
    destruct sett; simpl; [exact Hs|].
    destruct (pr_settings p); simpl; [exact Hs|].
    destruct (current_spectrometer (multispec ctl)); exact Hs. }
  unfold process. rewrite He, Np. cbv zeta. cbn [negb].
  rewrite L, Hroi. cbn [is_None].
  rewrite !crop_given_roi. reflexivity.
Qed.





Lemma settings_lookup_set_cropped ctl p q sett :
  settings_lookup ctl (set_cropped p q) sett = settings_lookup ctl p sett.
Proof. reflexivity. Qed.




(** What the cropped bundle holds when the ROI is valid and within every
    array: the slices of the processed and raw spectra of the reading and of
    the two axes of the settings. *)
Lemma cropped_bundle_slices p s roi :
  start roi < end_ roi ->
  (forall l, In (Some l) [processed p; raw p; wavelengths s; wavenumbers s] ->
     in_bounds (len l) (start roi) /\ in_bounds (len l) (end_ roi)) ->
  let sl := option_map (fun l => slice l (start roi) (end_ roi)) in
  processed (cropped_bundle p s roi) = sl (processed p)
  /\ raw (cropped_bundle p s roi) = sl (raw p)
  /\ pr_wavelengths (cropped_bundle p s roi) = sl (wavelengths s)
  /\ pr_wavenumbers (cropped_bundle p s roi) = sl (wavenumbers s).
Proof.
  intros Hlt Hin sl. unfold cropped_bundle, sl. simpl.
  assert (F : forall o, In o [processed p; raw p; wavelengths s; wavenumbers s] ->
            option_map (crop_to roi) o
            = option_map (fun l => slice l (start roi) (end_ roi)) o).
  { intros [l|] Ho; [|reflexivity]. simpl. f_equal.
    destruct (Hin l Ho). apply crop_to_in_bounds; assumption. }
  repeat split; apply F; simpl; auto.
Qed.

(** The dark spectrum is never cropped, and the cropped reference is made
    from the raw spectrum of the reading, not from its reference. *)
Lemma cropped_bundle_dark_reference p s roi :
  dark (cropped_bundle p s roi) = None
  /\ reference (cropped_bundle p s roi) = raw (cropped_bundle p s roi).
Proof. split; reflexivity. Qed.

End ProcessFacts.


(** C1.  A reading whose raw and reference spectra differ, under settings
    with the ROI [1, 3): the bundle that [process] attaches holds the slice
    of the raw spectrum as its reference, and no dark spectrum at all. *)
Theorem process_reference_dark_not_cropped :
  let s : SpectrometerSettings Z :=
    mkSettings (mkEEPROM (Some (mkROI 1 3)) true false) (mkState 0)
               (Some [800; 801; 802; 803]) (Some [100; 110; 120; 130])
               false false in
  let p : ProcessedReading Z :=
    mkPR (Some s) (Some [1; 2; 3; 4]) (Some [11; 12; 13; 14])
         (Some [5; 5; 5; 5]) (Some [21; 22; 23; 24]) None None None in
  exists prc,
    HorizROIFeature.process (mkCtl (mkMultispec None []) false false false)
      (HorizROIFeature.mk true true) (Some p) None
    = Ok (Some (HorizROIFeature.set_cropped p prc))
    /\ reference prc = Some [12; 13]
    /\ option_map (fun l => slice l 1 3) (reference p) = Some [22; 23]
    /\ dark prc = None
    /\ option_map (fun l => slice l 1 3) (dark p) = Some [5; 5].
Proof.
  intros s p. eexists. split; [reflexivity|]. repeat split.
Qed.

(* ================================================================== *)
(** * Toggling: HorizROIFeature.button_callback and
      ExternalTriggerFeature.enable_callback *)
(* ================================================================== *)

Section ToggleFacts.

Context {sample : Type}.
Implicit Types (ctl : Controller sample) (self : HorizROIFeature.t).

Import HorizROIFeature.

(** The flags after [update_visibility]. *)
Lemma update_visibility_flags ctl self :
  fst (update_visibility ctl self) =
  match current_spectrometer (multispec ctl) with
  | None => self
  | Some spec =>
      mk (has_horizontal_roi (eeprom (settings spec))
          && user_requested_enabled self)
         (user_requested_enabled self)
  end.
Proof.
  unfold update_visibility.
  destruct (current_spectrometer (multispec ctl)) as [spec|]; [|reflexivity].
  destruct (has_horizontal_roi (eeprom (settings spec))); reflexivity.
Qed.

(** The flags after one click. *)
Lemma button_callback_flags ctl self :
  fst (button_callback ctl self) =
  match current_spectrometer (multispec ctl) with
  | None => mk (negb (enabled self)) (negb (enabled self))
  | Some spec =>
      mk (has_horizontal_roi (eeprom (settings spec)) && negb (enabled self))
         (negb (enabled self))
  end.
Proof.
  unfold button_callback. rewrite update_visibility_flags. reflexivity.
Qed.

(** The flags after two clicks. *)
Lemma button_callback_twice_flags ctl self :
  button_callback_twice ctl self =
  match current_spectrometer (multispec ctl) with
  | None => mk (enabled self) (enabled self)
  | Some spec =>
      if has_horizontal_roi (eeprom (settings spec))
      then mk (enabled self) (enabled self)
      else mk false true
  end.
Proof.
  unfold button_callback_twice. rewrite !button_callback_flags.
  destruct (current_spectrometer (multispec ctl)) as [spec|]; simpl.
  - destruct (has_horizontal_roi (eeprom (settings spec))); simpl.
    + rewrite negb_involutive. reflexivity.
    + reflexivity.
  - rewrite negb_involutive. reflexivity.
Qed.

(** Two clicks lead back exactly to the settled states. *)
Lemma button_callback_twice_fixed ctl self :
  button_callback_twice ctl self = self <-> settled ctl self.
Proof.
  rewrite button_callback_twice_flags. unfold settled.
  destruct self as [e u]. simpl.
  destruct (current_spectrometer (multispec ctl)) as [spec|];
    [destruct (has_horizontal_roi (eeprom (settings spec)))|];
    split; intros H; try (inversion H; subst; auto; fail);
    try (destruct H; subst; reflexivity);
    try (simpl in H; subst; reflexivity).
Qed.

(** [update_visibility] under a spectrometer with a ROI, and [__init__],
    leave the feature settled. *)
Lemma update_visibility_settles ctl self spec :
  current_spectrometer (multispec ctl) = Some spec ->
  has_horizontal_roi (eeprom (settings spec)) = true ->
  settled ctl (fst (update_visibility ctl self)).
Proof.
  intros Hs Hr. rewrite update_visibility_flags. unfold settled.
  rewrite Hs, Hr. reflexivity.
Qed.

End ToggleFacts.

Section TriggerFacts.

Context {sample : Type}.
Variables TRIGGER_SOURCE_INTERNAL TRIGGER_SOURCE_EXTERNAL : Z.
Implicit Types (ms : Multispec sample) (self : ExternalTriggerFeature.t).

Import ExternalTriggerFeature.

(** No effect at all when the device already has the requested source. *)
Lemma enable_callback_unchanged ms self spec :
  current_spectrometer ms = Some spec ->
  requested_trigger_source TRIGGER_SOURCE_INTERNAL TRIGGER_SOURCE_EXTERNAL self
  = trigger_source (state (settings spec)) ->
  snd (enable_callback TRIGGER_SOURCE_INTERNAL TRIGGER_SOURCE_EXTERNAL ms self)
  = [].
Proof.
  intros Hs Hv. unfold enable_callback. rewrite Hs. simpl.
  unfold requested_trigger_source in Hv. rewrite Hv, Z.eqb_refl. reflexivity.
Qed.

(** Nor without a current spectrometer. *)
Lemma enable_callback_no_spectrometer ms self :
  current_spectrometer ms = None ->
  enable_callback TRIGGER_SOURCE_INTERNAL TRIGGER_SOURCE_EXTERNAL ms self
  = (self, []).
Proof. intros Hs. unfold enable_callback. rewrite Hs. reflexivity. Qed.

(** One write, of the requested source, when the device has another. *)
Lemma enable_callback_changed ms self spec :
  current_spectrometer ms = Some spec ->
  requested_trigger_source TRIGGER_SOURCE_INTERNAL TRIGGER_SOURCE_EXTERNAL self
  <> trigger_source (state (settings spec)) ->
  exists rest,
    snd (enable_callback TRIGGER_SOURCE_INTERNAL TRIGGER_SOURCE_EXTERNAL ms self)
    = ChangeDeviceSetting "trigger_source"
        (requested_trigger_source
           TRIGGER_SOURCE_INTERNAL TRIGGER_SOURCE_EXTERNAL self)
      :: rest
    /\ forall n v, ~ In (ChangeDeviceSetting n v) rest.
Proof.
  intros Hs Hv. unfold enable_callback. rewrite Hs. simpl.
  unfold requested_trigger_source in *.
  apply Z.eqb_neq in Hv. rewrite Hv. simpl.
  eexists. split; [reflexivity|].
  intros n v. destruct (isChecked (cb_enabled self)); simpl;
    intros H; repeat (destruct H as [H|H]; [discriminate|]); exact H.
Qed.

End TriggerFacts.

(** C7, as amended.  From a settled state of the ROI feature, two successive
    [button_callback] invocations leave [enabled] and
    [user_requested_enabled] at their original values; and
    [enable_callback] of the trigger feature writes no device setting when
    the trigger source it computes is the one the device has. *)
Theorem toggle_twice_settled {sample : Type}
    (TRIGGER_SOURCE_INTERNAL TRIGGER_SOURCE_EXTERNAL : Z)
    (ctl : Controller sample) (self : HorizROIFeature.t)
    (tself : ExternalTriggerFeature.t) :
  HorizROIFeature.settled ctl self ->
  (forall spec,
     current_spectrometer (multispec ctl) = Some spec ->
     ExternalTriggerFeature.requested_trigger_source
       TRIGGER_SOURCE_INTERNAL TRIGGER_SOURCE_EXTERNAL tself
     = trigger_source (state (settings spec))) ->
  HorizROIFeature.enabled (HorizROIFeature.button_callback_twice ctl self)
    = HorizROIFeature.enabled self
  /\ HorizROIFeature.user_requested_enabled
       (HorizROIFeature.button_callback_twice ctl self)
     = HorizROIFeature.user_requested_enabled self
  /\ forall name value,
       ~ In (ExternalTriggerFeature.ChangeDeviceSetting name value)
            (snd (ExternalTriggerFeature.enable_callback
                    TRIGGER_SOURCE_INTERNAL TRIGGER_SOURCE_EXTERNAL
                    (multispec ctl) tself)).
Proof.
  intros Hset Hv.
  apply button_callback_twice_fixed in Hset. rewrite Hset.
  split; [reflexivity|]. split; [reflexivity|].
  intros name value.
  destruct (current_spectrometer (multispec ctl)) as [spec|] eqn:Hs.
  - rewrite (enable_callback_unchanged _ _ _ _ spec Hs (Hv spec eq_refl)).
    intros [].
  - rewrite enable_callback_no_spectrometer by exact Hs. intros [].
Qed.

Lemma toggle_twice_settled_witness :
  let spec : Spectrometer Z :=
    mkSpectrometer
      (mkSettings (mkEEPROM (Some (mkROI 10 900)) true false) (mkState 1)
                  None None true false) in
  let ctl := mkCtl (mkMultispec (Some spec) [spec]) false false false in
  HorizROIFeature.button_callback_twice ctl (HorizROIFeature.mk true true)
  = HorizROIFeature.mk true true.
Proof.
  intros spec ctl.
  destruct (toggle_twice_settled 0 1 ctl (HorizROIFeature.mk true true)
              (ExternalTriggerFeature.mk (mkCheckBox true true) true))
    as [He [Hu _]];
    [reflexivity | intros sp E; inversion E; reflexivity |].
  destruct (HorizROIFeature.button_callback_twice ctl (HorizROIFeature.mk true true))
    as [e u].
  simpl in He, Hu. rewrite He, Hu. reflexivity.
Defined.

(** C7, as stated, fails.  With no spectrometer connected, [__init__] and
    then [init_hotplug] leave the feature off with the user's request
    standing; two clicks later the request is withdrawn. *)
Lemma toggle_twice_counterexample :
  let ctl : Controller Z := mkCtl (mkMultispec None []) false false false in
  let self := HorizROIFeature.init_hotplug ctl (fst (HorizROIFeature.init ctl)) in
  HorizROIFeature.user_requested_enabled self = true
  /\ HorizROIFeature.user_requested_enabled
       (HorizROIFeature.button_callback_twice ctl self) = false.
Proof. split; reflexivity. Qed.

(* ================================================================== *)
(** * The flags that the update_visibility methods compute *)
(* ================================================================== *)

Section FlagFacts.

Context {sample : Type}.
Variable TRIGGER_SOURCE_EXTERNAL : Z.
Implicit Types (ctl : Controller sample) (d : RamanModeFeature.Dialogs)
  (sys : Enablement.System).

Import Enablement.

(** [enable_callback] of the Raman feature leaves [visible] alone. *)
Lemma raman_enable_callback_visible d (self : RamanModeFeature.t) :
  RamanModeFeature.visible (fst (fst (RamanModeFeature.enable_callback d self)))
  = RamanModeFeature.visible self.
Proof.
  unfold RamanModeFeature.enable_callback.
  destruct (RamanModeFeature.visible self && isChecked (RamanModeFeature.cb_enable self));
    simpl; [|reflexivity].
  destruct (RamanModeFeature.confirm d) as [ok suppress].
  destruct ok; reflexivity.
Qed.

(** The visibility of the Raman checkbox after [update_visibility]. *)
Lemma raman_update_visibility_visible ctl d (self : RamanModeFeature.t) :
  RamanModeFeature.visible
    (fst (fst (RamanModeFeature.update_visibility ctl d self)))
  = match current_spectrometer (multispec ctl) with
    | None => false
    | Some spec =>
        is_micro (settings spec) && doing_raman ctl && is_paused ctl
        && has_laser (eeprom (settings spec))
    end.
Proof.
  unfold RamanModeFeature.update_visibility.
  set (v := match current_spectrometer (multispec ctl) with
            | None => false
            | Some spec => _
            end).
  destruct v eqn:Ev; simpl.
  - rewrite raman_enable_callback_visible. reflexivity.
  - reflexivity.
Qed.

(** The flags after the three [update_visibility] methods, in closed form. *)
Lemma update_visibility_flags_all ctl d sys :
  flags (update_visibility TRIGGER_SOURCE_EXTERNAL ctl d sys) =
  match current_spectrometer (multispec ctl) with
  | None =>
      mkFlags (roi_enabled (flags sys)) (trigger_enabled (flags sys)) false
  | Some spec =>
      mkFlags
        (has_horizontal_roi (eeprom (settings spec))
         && HorizROIFeature.user_requested_enabled (roi sys))
        (supports_triggering (settings spec)
         && (trigger_source (state (settings spec)) =? TRIGGER_SOURCE_EXTERNAL))
        (is_micro (settings spec) && doing_raman ctl && is_paused ctl
         && has_laser (eeprom (settings spec)))
  end.
Proof.
  unfold flags, update_visibility. simpl.
  rewrite raman_update_visibility_visible, update_visibility_flags.
  unfold ExternalTriggerFeature.update_visibility.
  destruct (current_spectrometer (multispec ctl)); reflexivity.
Qed.

(** C8, as amended.  Two runs of the [update_visibility] methods from the
    same capability flags, UI mode and page and prior user requests (the
    ROI request and the trigger source set on the device) compute the same
    flags, provided that a spectrometer is selected or else that the two
    runs start from the same ROI-enabled and trigger-enabled flags (which
    the methods leave as they are when none is selected).  Nothing else of
    the two systems has to agree: not the checkboxes, not the dialogs'
    answers, not the Raman flags. *)
Theorem update_visibility_deterministic ctl1 ctl2 d1 d2 sys1 sys2 :
  inputs ctl1 sys1 = inputs ctl2 sys2 ->
  (current_spectrometer (multispec ctl1) = None ->
   roi_enabled (flags sys1) = roi_enabled (flags sys2)
   /\ trigger_enabled (flags sys1) = trigger_enabled (flags sys2)) ->
  flags (update_visibility TRIGGER_SOURCE_EXTERNAL ctl1 d1 sys1)
  = flags (update_visibility TRIGGER_SOURCE_EXTERNAL ctl2 d2 sys2).
Proof.
  intros Hin Hprior. rewrite !update_visibility_flags_all.
  unfold inputs in Hin.
  destruct (current_spectrometer (multispec ctl1)) as [sp1|];
    destruct (current_spectrometer (multispec ctl2)) as [sp2|];
    simpl in Hin; try discriminate.
  - inversion Hin. repeat match goal with H : _ = _ |- _ => rewrite H end.
    reflexivity.
  - destruct (Hprior eq_refl) as [Hr Ht]. rewrite Hr, Ht. reflexivity.
Qed.

(** Recomputing is idempotent: a second run changes no flag. *)
Lemma update_visibility_idempotent ctl d d' sys :
  flags (update_visibility TRIGGER_SOURCE_EXTERNAL ctl d'
           (update_visibility TRIGGER_SOURCE_EXTERNAL ctl d sys))
  = flags (update_visibility TRIGGER_SOURCE_EXTERNAL ctl d sys).
Proof.
  rewrite (update_visibility_flags_all ctl d').
  rewrite (update_visibility_flags_all ctl d).
  destruct (current_spectrometer (multispec ctl)) as [spec|] eqn:Hs.
  - f_equal. simpl. rewrite update_visibility_flags, Hs. reflexivity.
  - reflexivity.
Qed.

End FlagFacts.

Lemma update_visibility_deterministic_witness :
  let spec : Spectrometer Z :=
    mkSpectrometer
      (mkSettings (mkEEPROM (Some (mkROI 10 900)) true true) (mkState 1)
                  None None true true) in
  let ctl := mkCtl (mkMultispec (Some spec) [spec]) false true true in
  let d := RamanModeFeature.mkDialogs false true false in
  let off := mkCheckBox false false in
  let on := mkCheckBox true true in
  let sys1 :=
    Enablement.mkSystem (HorizROIFeature.mk false true)
      (ExternalTriggerFeature.mk off false)
      (RamanModeFeature.mk off false false) in
  let sys2 :=
    Enablement.mkSystem (HorizROIFeature.mk true true)
      (ExternalTriggerFeature.mk on true)
      (RamanModeFeature.mk on true true) in
  Enablement.flags (Enablement.update_visibility 1 ctl d sys1)
  = Enablement.flags (Enablement.update_visibility 1 ctl d sys2).
Proof.
  intros spec ctl d off on sys1 sys2.
  apply update_visibility_deterministic;
    [reflexivity | intros H; discriminate H].
Defined.

(** C8, as stated, fails.  With no spectrometer selected, two ROI features
    with the same user request, under the same controller, keep their
    different [enabled] flags through [update_visibility]. *)
Lemma update_visibility_counterexample :
  let ctl : Controller Z := mkCtl (mkMultispec None []) false false false in
  let d := RamanModeFeature.mkDialogs false false false in
  let off := mkCheckBox false false in
  let sys1 :=
    Enablement.mkSystem (fst (HorizROIFeature.init ctl))
      (ExternalTriggerFeature.init off)
      (RamanModeFeature.mk off false false) in
  let sys2 :=
    Enablement.mkSystem
      (HorizROIFeature.init_hotplug ctl (fst (HorizROIFeature.init ctl)))
      (ExternalTriggerFeature.init off)
      (RamanModeFeature.mk off false false) in
  Enablement.inputs ctl sys1 = Enablement.inputs ctl sys2
  /\ Enablement.flags (Enablement.update_visibility 1 ctl d sys1)
     <> Enablement.flags (Enablement.update_visibility 1 ctl d sys2).
Proof. split; [reflexivity | discriminate]. Qed.

(* ================================================================== *)
(** * CloudManager.perform_restore *)
(* ================================================================== *)

Section RestoreFacts.

Variable ID_POOL_ID : string.
Variable w : World.
Implicit Types (self : CloudManager.t) (log : list CloudManager.event).

Import CloudManager.
Local Open Scope cloud_scope.

(** Runs the monadic plumbing of a method down to its calls on the world. *)
Ltac cloud_run :=
  cbv beta iota zeta delta
    [bind try_except get put emit lift ret raise setText setIcon exec_
     bucket_download_file download_failed eeprom_editor_import_eeprom
     fst snd].

Lemma shown_app log log' : shown (log ++ log') = shown log ++ shown log'.
Proof. unfold shown. apply flat_map_app. Qed.

(** The [except] branch shows the retrieval error, once, and returns. *)
Lemma download_failed_run local_file self log :
  download_failed local_file (self, log)
  = (Ok (local_file, false),
     (mk retrieving_error (session self) (eeprom_bucket self),
      log ++ [Exec retrieving_error])).
Proof. reflexivity. Qed.

(** [attempt_download] returns whatever the download does: the [try] catches
    every exception of its body. *)
Lemma attempt_download_returns serial_number self log :
  exists r s', attempt_download w serial_number (self, log) = (Ok r, s').
Proof.
  unfold attempt_download.
  destruct (get_default_data_dir w) as [data_dir|e].
  - cloud_run. cbn [eeprom_bucket].
    destruct (eeprom_bucket self) as [b|].
    + destruct (download_file w b _ _) as [[]|e]; eauto.
    + eauto.
  - rewrite download_failed_run. eauto.
Qed.

(** A failed download is turned into the modal message and the answer
    [False]. *)
Lemma attempt_download_failure serial_number self log b data_dir e :
  eeprom_bucket self = Some b ->
  get_default_data_dir w = Ok data_dir ->
  download_file w b (serial_number ++ ".json")
    (os_path_join w data_dir ["eeprom_backups"; (serial_number ++ ".json")%string])
  = Raise e ->
  exists local_file self',
    attempt_download w serial_number (self, log)
    = (Ok (local_file, false),
       (self',
        log ++ [DownloadFile b (serial_number ++ ".json") local_file;
                Exec retrieving_error])).
Proof.
  intros Hb Hd He. unfold attempt_download. rewrite Hd.
  cloud_run. rewrite Hb, He.
  rewrite <- app_assoc. simpl. eauto.
Qed.

(** A successful session setup stores the session and the bucket. *)
Lemma setup_connection_ok self log :
  session_ok ID_POOL_ID w ->
  exists sess,
    setup_connection ID_POOL_ID w (self, log)
    = (Ok tt,
       (mk (result_message self) (Some sess) (Some "eeprom-factory-files"),
        log)).
Proof.
  intros [i [c [H1 [H2 H3]]]].
  unfold setup_connection, create_session. cloud_run.
  rewrite H1, H2, H3. eauto.
Qed.

(** A failure of the credential exchange leaves [setup_connection] as the
    exception it raised, with no message shown. *)
Lemma setup_connection_raises self log e :
  cognito_client w = Raise e
  \/ (cognito_client w = Ok tt /\ get_id w ID_POOL_ID = Raise e)
  \/ (exists i, cognito_client w = Ok tt /\ get_id w ID_POOL_ID = Ok i
                /\ get_credentials_for_identity w i = Raise e) ->
  setup_connection ID_POOL_ID w (self, log) = (Raise e, (self, log)).
Proof.
  unfold setup_connection, create_session. cloud_run.
  intros [H1 | [[H1 H2] | [i [H1 [H2 H3]]]]].
  - rewrite H1. reflexivity.
  - rewrite H1, H2. reflexivity.
  - rewrite H1, H2, H3. reflexivity.
Qed.

(** ... and so does [perform_restore], whatever the user answered. *)
Lemma perform_restore_raises self log e :
  cognito_client w = Raise e
  \/ (cognito_client w = Ok tt /\ get_id w ID_POOL_ID = Raise e)
  \/ (exists i, cognito_client w = Ok tt /\ get_id w ID_POOL_ID = Ok i
                /\ get_credentials_for_identity w i = Raise e) ->
  perform_restore ID_POOL_ID w (self, log) = (Raise e, (self, log)).
Proof.
  intros H. unfold perform_restore, prompt_for_serial.
  destruct (getText w) as [text ok].
  destruct ok; cbn [negb]; cbv beta iota delta [bind ret];
    rewrite (setup_connection_raises self log e H); reflexivity.
Qed.

(** C10.  When the user gave a serial number and the session setup and the
    download succeed, [perform_restore] shows "EEPROM Restore successful."
    whatever the import answers; when the import answers False, "EEPROM
    Writing Error." is shown before it. *)
Theorem perform_restore_messages self log text local_file import_result :
  getText w = (text, true) ->
  session_ok ID_POOL_ID w ->
  download_ok w text local_file ->
  import_eeprom w local_file = Ok import_result ->
  exists self' log',
    perform_restore ID_POOL_ID w (self, log) = (Ok tt, (self', log'))
    /\ shown log'
       = shown log
         ++ (if import_result then [] else [writing_error])
         ++ [restore_successful].
Proof.
  intros Hprompt Hsess [data_dir [Hdir [Hfile Hdl]]] Himp.
  destruct (setup_connection_ok self log Hsess) as [sess Hsetup].
  unfold perform_restore, prompt_for_serial. rewrite Hprompt. cbn [negb].
  cbv beta iota delta [bind ret]. rewrite Hsetup.
  unfold attempt_download. rewrite Hdir. cloud_run. cbn [eeprom_bucket].
  rewrite <- Hfile, Hdl, Himp.
  destruct import_result; cbn [negb]; do 2 eexists; (split; [reflexivity|]);
    rewrite !shown_app; simpl; rewrite ?app_nil_r, <- ?app_assoc; reflexivity.
Qed.

End RestoreFacts.

Lemma perform_restore_messages_witness :
  let w :=
    mkWorld "posix" (Some "/home/u") "/home/u" ("WP-00123", true)
            (Ok tt) (fun _ => Ok "id")
            (fun _ => Ok (mkCredentials "key" "secret" "token"))
            (fun _ _ _ => Ok tt) (fun _ => Ok false) in
  exists self' log',
    CloudManager.perform_restore "pool" w (CloudManager.init, [])
    = (Ok tt, (self', log'))
    /\ CloudManager.shown log'
       = [CloudManager.writing_error; CloudManager.restore_successful].
Proof.
  intros w.
  apply (perform_restore_messages "pool" w CloudManager.init [] "WP-00123"
           "/home/u/EnlightenSpectra/eeprom_backups/WP-00123.json" false).
  - reflexivity.
  - exists "id", (mkCredentials "key" "secret" "token"). repeat split.
  - exists "/home/u/EnlightenSpectra". repeat split.
  - reflexivity.
Defined.

(** C5.  The identity service refuses the request for an identity: the
    exception leaves [perform_restore], no message box is shown, and the
    manager is as it was.  (A refused download, in contrast, ends in the
    message box: [attempt_download_failure].) *)
Theorem perform_restore_session_failure_propagates :
  let w :=
    mkWorld "posix" (Some "/home/u") "/home/u" ("WP-00123", true)
            (Ok tt) (fun _ => Raise (ClientError "EndpointConnectionError"))
            (fun _ => Ok (mkCredentials "key" "secret" "token"))
            (fun _ _ _ => Ok tt) (fun _ => Ok true) in
  CloudManager.perform_restore "pool" w (CloudManager.init, [])
  = (Raise (ClientError "EndpointConnectionError"), (CloudManager.init, [])).
Proof. reflexivity. Qed.

(* ================================================================== *)
(** * Strings and [os.path.join] *)
(* ================================================================== *)

Section StrFacts.

Import Str.
Local Open Scope string_scope.
Implicit Types (a b s : string) (c : ascii).

Lemma append_assoc a b s : (a ++ b) ++ s = a ++ (b ++ s).
Proof. induction a as [|c a IH]; simpl; [reflexivity | now rewrite IH]. Qed.

Lemma append_nil_r a : a ++ "" = a.
Proof. induction a as [|c a IH]; simpl; [reflexivity | now rewrite IH]. Qed.

Lemma take_drop (n : nat) s : take n s ++ drop n s = s.
Proof.
  revert s. induction n as [|n IH]; intros [|c s]; simpl; try reflexivity.
  now rewrite IH.
Qed.

Lemma drop_length s : drop (String.length s) s = "".
Proof. induction s as [|c s IH]; simpl; [reflexivity | exact IH]. Qed.

Lemma drop_add (n m : nat) s : drop (n + m) s = drop m (drop n s).
Proof.
  revert s. induction n as [|n IH]; intros s; simpl; [reflexivity|].
  destruct s as [|c s]; [destruct m; reflexivity | apply IH].
Qed.

Lemma drop_replace (n : nat) c c' s :
  drop n (replace c c' s) = replace c c' (drop n s).
Proof.
  revert s. induction n as [|n IH]; intros [|x s]; simpl; try reflexivity.
  apply IH.
Qed.

Lemma nonempty_app_l a b : nonempty a = true -> nonempty (a ++ b) = true.
Proof. destruct a; [discriminate | reflexivity]. Qed.

Lemma nonempty_app_r a b : nonempty b = true -> nonempty (a ++ b) = true.
Proof. destruct a; [trivial | reflexivity]. Qed.

Lemma head_app a b : nonempty a = true -> head (a ++ b) = head a.
Proof. destruct a; [discriminate | reflexivity]. Qed.

Lemma last_app a b : nonempty b = true -> last (a ++ b) = last b.
Proof.
  intros Hb. induction a as [|c a IH]; [reflexivity|].
  simpl. rewrite IH.
  destruct (a ++ b) eqn:E; [|reflexivity].
  destruct a; simpl in E; [subst b|]; discriminate.
Qed.

Lemma head_in_app chars a b :
  nonempty a = true -> head_in chars (a ++ b) = head_in chars a.
Proof. intros H. unfold head_in. now rewrite head_app. Qed.

Lemma last_in_app chars a b :
  nonempty b = true -> last_in chars (a ++ b) = last_in chars b.
Proof. intros H. unfold last_in. now rewrite last_app. Qed.

(** The character that [find] reports is where it says. *)
Lemma find_head c s (i : nat) :
  find c s = Some i -> head (drop i s) = Some c.
Proof.
  revert i. induction s as [|x s IH]; intros i; simpl; [discriminate|].
  destruct (Ascii.eqb x c) eqn:E.
  - intros H. inversion H. simpl. apply Ascii.eqb_eq in E. now subst.
  - destruct (find c s) as [j|]; simpl; [|discriminate].
    intros H. inversion H. simpl. now apply IH.
Qed.

Lemma find_from_head c (start : nat) s (i : nat) :
  find_from c start s = Some i -> head (drop i s) = Some c.
Proof.
  unfold find_from.
  destruct (String.length s <? start)%nat; [discriminate|].
  destruct (find c (drop start s)) as [j|] eqn:E; simpl; [|discriminate].
  intros H. inversion H. rewrite drop_add. now apply find_head.
Qed.

End StrFacts.

Section PosixFacts.

Import Str.
Local Open Scope string_scope.

(** A relative component is appended after a separator. *)
Lemma posixpath_join_step_plain path b :
  nonempty path = true ->
  last_in [posixpath.sep] path = false ->
  head_in [posixpath.sep] b = false ->
  posixpath.join_step path b = path ++ String posixpath.sep b.
Proof.
  intros Hn Hl Hb. unfold posixpath.join_step. now rewrite Hb, Hn, Hl.
Qed.

(** A component that begins with the separator replaces all before it. *)
Lemma posixpath_join_step_absolute path b :
  head_in [posixpath.sep] b = true -> posixpath.join_step path b = b.
Proof. intros Hb. unfold posixpath.join_step. now rewrite Hb. Qed.

Lemma posixpath_join_absolute_last a p b :
  head_in [posixpath.sep] b = true -> posixpath.join a (p ++ [b]) = b.
Proof.
  intros Hb. unfold posixpath.join. rewrite fold_left_app. simpl.
  now apply posixpath_join_step_absolute.
Qed.

End PosixFacts.

Section NtFacts.

Import Str.
Local Open Scope string_scope.

Lemma replace_altsep_is_sep (c : ascii) :
  (if Ascii.eqb c ntpath.altsep then ntpath.sep else c) = ntpath.sep ->
  char_in ntpath.seps c = true.
Proof.
  unfold char_in, ntpath.seps. simpl.
  destruct (Ascii.eqb c ntpath.altsep) eqn:E.
  - intros _. now rewrite orb_true_r.
  - intros H. subst c. reflexivity.
Qed.

Lemma replace_altsep_is_colon (c : ascii) :
  (if Ascii.eqb c ntpath.altsep then ntpath.sep else c) = ntpath.colon ->
  c = ntpath.colon.
Proof.
  destruct (Ascii.eqb c ntpath.altsep); [discriminate | trivial].
Qed.

(** What [splitdrive] returns: the two parts make up the path again, and a
    drive that is there ends in a colon unless the rest is empty or begins
    with a separator. *)
Lemma splitdrive_spec p drv rp :
  ntpath.splitdrive p = (drv, rp) ->
  drv ++ rp = p
  /\ (nonempty drv = false \/ last_in [ntpath.colon] drv = true
      \/ nonempty rp = false \/ head_in ntpath.seps rp = true).
Proof.
  unfold ntpath.splitdrive.
  destruct (2 <=? String.length p)%nat eqn:Hlen;
    [|intros H; injection H as <- <-; auto].
  set (normp := replace ntpath.altsep ntpath.sep p).
  destruct (String.eqb (take 2 normp) _ && negb _) eqn:Hunc.
  - destruct (find_from ntpath.sep 2 normp) as [index|];
      [|intros H; injection H as <- <-; auto].
    destruct (find_from ntpath.sep (index + 1) normp) as [index2|] eqn:F2.
    + destruct (index2 =? index + 1)%nat; intros H; injection H as <- <-;
        [auto|].
      split; [apply take_drop|].
      do 3 right.
      apply find_from_head in F2. unfold normp in F2.
      rewrite drop_replace in F2. unfold head_in.
      destruct (drop index2 p) as [|c r]; cbn [replace head] in *;
        [discriminate|].
      injection F2 as F2. now apply replace_altsep_is_sep.
    + intros H; injection H as <- <-. split; [apply take_drop|].
      right. right. left. now rewrite drop_length.
  - destruct (String.eqb (take 1 (drop 1 normp)) _) eqn:Hcol;
      intros H; injection H as <- <-; [|auto].
    split; [exact (take_drop 2 p)|].
    right. left.
    destruct p as [|c0 [|c1 r]]; try discriminate.
    unfold normp in Hcol. apply String.eqb_eq in Hcol.
    cbn [replace drop take] in Hcol. injection Hcol as Hcol.
    apply replace_altsep_is_colon in Hcol. subst c1. reflexivity.
Qed.

(** A path without a drive: it begins neither with a separator nor with a
    letter and a colon. *)
Lemma splitdrive_relative b :
  head_in ntpath.seps b = false ->
  head_in [ntpath.colon] (drop 1 b) = false ->
  ntpath.splitdrive b = (EmptyString, b).
Proof.
  intros Hh Hc. unfold ntpath.splitdrive.
  destruct b as [|c0 [|c1 r]]; try reflexivity.
  unfold head_in, char_in, ntpath.seps in Hh, Hc. simpl in Hh, Hc.
  rewrite !orb_false_r in *. apply orb_false_iff in Hh. destruct Hh as [H0 H0'].
  cbn [String.length Nat.leb replace take drop String.eqb].
  rewrite H0'.
  rewrite (Ascii.eqb_sym c0) in H0.
  assert (E0 : Ascii.eqb c0 ntpath.sep = false)
    by (now rewrite Ascii.eqb_sym in H0 |- *; rewrite Ascii.eqb_sym).
  rewrite E0. cbn [andb].
  destruct (Ascii.eqb c1 ntpath.altsep) eqn:E1; [reflexivity|].
  rewrite Hc. reflexivity.
Qed.

(** One turn of the loop of [join] on a relative component. *)
Lemma ntpath_join_step_relative drv rp b :
  head_in ntpath.seps b = false ->
  head_in [ntpath.colon] (drop 1 b) = false ->
  ntpath.join_step (drv, rp) b
  = (drv,
     (if nonempty rp && negb (last_in ntpath.seps rp)
      then rp ++ String ntpath.sep EmptyString else rp) ++ b).
Proof.
  intros Hh Hc. unfold ntpath.join_step.
  rewrite (splitdrive_relative b Hh Hc), Hh. reflexivity.
Qed.

Lemma last_in_cons c chars s :
  last_in (c :: chars) s = false ->
  last_in [c] s = false /\ last_in chars s = false.
Proof.
  unfold last_in, char_in. destruct (last s) as [x|]; simpl; [|auto].
  rewrite orb_false_r. apply orb_false_iff.
Qed.

Lemma sep_snoc x c b : (x ++ String c EmptyString) ++ b = x ++ String c b.
Proof. now rewrite append_assoc. Qed.

Lemma last_in_snoc chars x c b :
  nonempty b = true -> last_in chars (x ++ String c b) = last_in chars b.
Proof.
  intros Hb. rewrite last_in_app by reflexivity.
  unfold last_in. simpl. destruct b; [discriminate | reflexivity].
Qed.

(** Two relative components after a directory name that ends neither in a
    separator nor in a colon: each is appended after a backslash. *)
Lemma ntpath_join_plain a b1 b2 :
  nonempty a = true ->
  last_in (ntpath.colon :: ntpath.seps) a = false ->
  head_in ntpath.seps b1 = false ->
  head_in [ntpath.colon] (drop 1 b1) = false ->
  nonempty b1 = true ->
  last_in ntpath.seps b1 = false ->
  head_in ntpath.seps b2 = false ->
  head_in [ntpath.colon] (drop 1 b2) = false ->
  ntpath.join a [b1; b2]
  = a ++ String ntpath.sep b1 ++ String ntpath.sep b2.
Proof.
  intros Ha Hla Hh1 Hc1 Hn1 Hl1 Hh2 Hc2.
  apply last_in_cons in Hla. destruct Hla as [Hcol Hsep].
  unfold ntpath.join.
  destruct (ntpath.splitdrive a) as [drv rp] eqn:E.
  apply splitdrive_spec in E. destruct E as [Ea Hshape]. subst a.
  cbn [fold_left].
  rewrite (ntpath_join_step_relative drv rp b1 Hh1 Hc1).
  rewrite (ntpath_join_step_relative drv _ b2 Hh2 Hc2).
  destruct rp as [|c r].
  - rewrite append_nil_r in *. cbn [nonempty andb append].
    rewrite Hn1, Hl1. cbn [andb negb]. rewrite !sep_snoc.
    rewrite nonempty_app_l by exact Hn1.
    rewrite head_in_app by exact Hn1.
    rewrite Hh1, Ha, Hcol. reflexivity.
  - assert (Hr : last_in ntpath.seps (String c r) = false)
      by (now rewrite last_in_app in Hsep).
    rewrite Hr. cbn [nonempty andb negb].
    repeat first
      [ rewrite sep_snoc
      | rewrite (last_in_snoc _ _ _ b1 Hn1)
      | rewrite Hl1
      | rewrite nonempty_app_l by reflexivity
      | rewrite head_in_app by reflexivity
      | progress cbn [andb negb] ].
    assert (F : negb (head_in ntpath.seps (String c r))
                && nonempty drv && negb (last_in [ntpath.colon] drv) = false).
    { destruct Hshape as [H | [H | [H | H]]];
        try discriminate; rewrite H;
        rewrite ?andb_false_r, ?andb_false_l; reflexivity. }
    cbn [andb]. rewrite F. now rewrite !append_assoc.
Qed.

End NtFacts.

(* ================================================================== *)
(** * The data directory and CloudManager.attempt_download *)
(* ================================================================== *)

Section DownloadFacts.

Import Str.

Variable w : World.

(** The file name made of a relative serial number is relative too. *)
Lemma json_head_in chars serial_number :
  head_in chars ".json" = false ->
  head_in chars serial_number = false ->
  head_in chars (serial_number ++ ".json")%string = false.
Proof.
  intros Hj Hs. destruct serial_number as [|c r]; [exact Hj | exact Hs].
Qed.

Lemma json_second_not_colon serial_number :
  head_in [ntpath.colon] (drop 1 serial_number) = false ->
  head_in [ntpath.colon] (drop 1 (serial_number ++ ".json")%string) = false.
Proof.
  destruct serial_number as [|c0 [|c1 r]]; try reflexivity.
  intros H. exact H.
Qed.

(** Under a plain home, the data directory is the home followed by its
    components. *)
Lemma get_default_data_dir_plain h :
  home_dir w = Some h ->
  plain_dir w h = true ->
  get_default_data_dir w = Ok (path_of w (data_dir_parts w h)).
Proof.
  unfold home_dir, plain_dir, get_default_data_dir, path_of, data_dir_parts,
    os_path_join, environ_get_HOME, os_sep, is_nt.
  destruct (String.eqb (os_name w) "nt"); intros Hh Hp;
    apply andb_true_iff in Hp; destruct Hp as [Hn Hl];
    apply negb_true_iff in Hl.
  - injection Hh as <-. f_equal.
    rewrite ntpath_join_plain; auto.
  - rewrite Hh. simpl. f_equal. unfold posixpath.join. simpl.
    now apply posixpath_join_step_plain.
Qed.

(** Under a relative serial number, the local file is the data directory
    followed by [eeprom_backups] and the file name. *)
Lemma local_file_plain h serial_number :
  plain_dir w h = true ->
  relative_serial w serial_number = true ->
  os_path_join w (path_of w (data_dir_parts w h))
    ["eeprom_backups"; (serial_number ++ ".json")%string]
  = path_of w (data_dir_parts w h
               ++ ["eeprom_backups"; (serial_number ++ ".json")%string])%list.
Proof.
  unfold plain_dir, relative_serial, path_of, data_dir_parts, os_path_join,
    os_sep, is_nt.
  destruct (String.eqb (os_name w) "nt"); intros Hp Hs;
    apply andb_true_iff in Hp; destruct Hp as [Hn Hl];
    apply negb_true_iff in Hl.
  - apply andb_true_iff in Hs. destruct Hs as [Hs1 Hs2].
    apply negb_true_iff in Hs1, Hs2.
    cbn [String.concat app].
    rewrite ntpath_join_plain.
    + now rewrite !append_assoc.
    + now apply nonempty_app_l.
    + now rewrite last_in_app.
    + reflexivity.
    + reflexivity.
    + reflexivity.
    + reflexivity.
    + now apply json_head_in.
    + now apply json_second_not_colon.
  - apply negb_true_iff in Hs.
    cbn [String.concat app]. unfold posixpath.join. cbn [fold_left].
    rewrite (posixpath_join_step_plain _ "eeprom_backups");
      [| now apply nonempty_app_l | now rewrite last_in_app | reflexivity].
    rewrite posixpath_join_step_plain;
      [| now apply nonempty_app_r | now rewrite last_in_app
       | now apply json_head_in].
    now rewrite !append_assoc.
Qed.

(** [attempt_download] asks the bucket for [serial_number.json], to be
    written to the local file joined from the data directory. *)
Lemma attempt_download_request serial_number self log b data_dir :
  CloudManager.eeprom_bucket self = Some b ->
  get_default_data_dir w = Ok data_dir ->
  exists r self' rest,
    CloudManager.attempt_download w serial_number (self, log)
    = (Ok r,
       (self',
        log ++ CloudManager.DownloadFile b (serial_number ++ ".json")%string
                 (os_path_join w data_dir
                    ["eeprom_backups"; (serial_number ++ ".json")%string])
               :: rest))
    /\ fst r = os_path_join w data_dir
                 ["eeprom_backups"; (serial_number ++ ".json")%string].
Proof.
  intros Hb Hd. unfold CloudManager.attempt_download. rewrite Hd.
  cbv beta iota zeta delta
    [CloudManager.bind CloudManager.try_except CloudManager.get
     CloudManager.put CloudManager.emit CloudManager.lift CloudManager.ret
     CloudManager.raise CloudManager.setText CloudManager.setIcon
     CloudManager.exec_ CloudManager.bucket_download_file
     CloudManager.download_failed fst snd].
  rewrite Hb.
  destruct (download_file w b _ _) as [[]|e].
  - do 3 eexists. split; reflexivity.
  - do 3 eexists. rewrite <- app_assoc. split; reflexivity.
Qed.

(** C9, as amended.  For a serial number that names a relative file and a
    home directory that is set and plain, the data directory is
    [~\Documents\EnlightenSpectra] on Windows and [$HOME/EnlightenSpectra]
    elsewhere, and [attempt_download] asks for the object
    [serial_number.json], to be written to
    [<data_dir>/eeprom_backups/serial_number.json]. *)
Theorem attempt_download_destination serial_number self log b h :
  CloudManager.eeprom_bucket self = Some b ->
  home_dir w = Some h ->
  plain_dir w h = true ->
  relative_serial w serial_number = true ->
  get_default_data_dir w = Ok (path_of w (data_dir_parts w h))
  /\ exists r self' rest,
       CloudManager.attempt_download w serial_number (self, log)
       = (Ok r,
          (self',
           log ++ CloudManager.DownloadFile b (serial_number ++ ".json")%string
                    (path_of w (data_dir_parts w h
                                ++ ["eeprom_backups";
                                    (serial_number ++ ".json")%string])%list)
                  :: rest))
       /\ fst r = path_of w (data_dir_parts w h
                             ++ ["eeprom_backups";
                                 (serial_number ++ ".json")%string])%list.
Proof.
  intros Hb Hh Hp Hs.
  assert (Hd := get_default_data_dir_plain h Hh Hp).
  split; [exact Hd|].
  rewrite <- (local_file_plain h serial_number Hp Hs).
  now apply attempt_download_request.
Qed.

End DownloadFacts.

Lemma attempt_download_destination_witness :
  get_default_data_dir posix_world = Ok "/home/u/EnlightenSpectra"
  /\ get_default_data_dir nt_world = Ok "C:\Users\u\Documents\EnlightenSpectra".
Proof.
  split.
  - apply (attempt_download_destination posix_world "WP-00123" connected []
             "eeprom-factory-files" "/home/u"); reflexivity.
  - apply (attempt_download_destination nt_world "WP-00123" connected []
             "eeprom-factory-files" "C:\Users\u"); reflexivity.
Defined.

(** C9, as stated, fails.  A serial number that begins with the separator
    makes [os.path.join] drop the data directory: the file is written to the
    path the serial number names. *)
Lemma attempt_download_counterexample :
  CloudManager.attempt_download posix_world "/tmp/x" (connected, [])
  = (Ok ("/tmp/x.json", true),
     (connected,
      [CloudManager.DownloadFile "eeprom-factory-files" "/tmp/x.json"
         "/tmp/x.json"]))
  /\ "/tmp/x.json"
     <> path_of posix_world
          ["/home/u"; "EnlightenSpectra"; "eeprom_backups"; "/tmp/x.json"].
Proof. split; [reflexivity | discriminate]. Qed.

(* ================================================================== *)
(** * Further properties of HorizROIFeature: cropping *)
(* ================================================================== *)

Section CropMore.

Context {sample A : Type}.
Implicit Types (ctl : Controller sample) (roi : ROI).

Import HorizROIFeature.

(** The length of a cropped array depends on the length of the array
    alone. *)
Lemma len_crop_to {B : Type} roi (l : list B) :
  len (crop_to roi l) = cropped_len roi (len l).
Proof.
  unfold crop_to, cropped_len.
  destruct (negb (ROI_valid roi) || (start roi >=? len l)
            || (end_ roi >=? len l)) eqn:G; [reflexivity|].
  apply crop_guard_false in G. unfold in_bounds in G.
  unfold ROI_crop. apply slice_length; lia.
Qed.

Lemma cropped_len_le roi (n : Z) : 0 <= n -> cropped_len roi n <= n.
Proof.
  intros Hn. unfold cropped_len.
  destruct (negb (ROI_valid roi) || (start roi >=? n) || (end_ roi >=? n))
    eqn:G; [lia|].
  apply crop_guard_false in G. unfold in_bounds in G. lia.
Qed.

(** A cropped array is refused by the guard: its length does not exceed the
    end of the ROI. *)
Lemma crop_to_idempotent {B : Type} roi (l : list B) :
  crop_to roi (crop_to roi l) = crop_to roi l.
Proof.
  destruct (negb (ROI_valid roi) || (start roi >=? len l)
            || (end_ roi >=? len l)) eqn:G.
  - assert (H : crop_to roi l = l) by (unfold crop_to; now rewrite G).
    rewrite !H. reflexivity.
  - assert (H : crop_to roi l = ROI_crop roi l)
      by (unfold crop_to; now rewrite G).
    rewrite H. apply crop_guard_false in G. unfold in_bounds in G.
    assert (L : len (ROI_crop roi l) = end_ roi - start roi)
      by (unfold ROI_crop; apply slice_length; lia).
    assert (E : (end_ roi >=? len (ROI_crop roi l)) = true)
      by (rewrite Z.geb_leb; apply Z.leb_le; lia).
    unfold crop_to. rewrite E, orb_true_r. reflexivity.
Qed.

(** [crop] in terms of the guarded slice. *)
Lemma crop_eq_to ctl (spectrum : list A) spec r sett :
  crop ctl (Some spectrum) spec r sett =
  (roi <- roi_lookup ctl spec r sett ;;
   Ok (Some (match roi with
             | Some roi => crop_to roi spectrum
             | None => spectrum
             end)))%py.
Proof.
  rewrite crop_eq.
  destruct (roi_lookup ctl spec r sett) as [[roi|]|e]; simpl; try reflexivity.
  unfold crop_to. destruct (negb (ROI_valid roi) || _ || _); reflexivity.
Qed.

(** X1.  Cropping is idempotent: what [crop] returns for an array, [crop]
    called again with the same arguments returns unchanged (and a call that
    raises, raises again). *)
Theorem crop_idempotent ctl (x : option (list A)) spec r sett :
  (c <- crop ctl x spec r sett ;; crop ctl c spec r sett)%py
  = crop ctl x spec r sett.
Proof.
  destruct x as [spectrum|]; [|reflexivity].
  rewrite crop_eq_to.
  destruct (roi_lookup ctl spec r sett) as [[roi|]|e] eqn:L; cbn [rbind];
    [| |reflexivity]; rewrite crop_eq_to, L; cbn [rbind].
  - now rewrite crop_to_idempotent.
  - reflexivity.
Qed.

End CropMore.

(* ================================================================== *)
(** * Further properties of HorizROIFeature: process, the flags, the
      curtains *)
(* ================================================================== *)

Section ProcessMore.

Context {sample : Type}.
Implicit Types (ctl : Controller sample) (p : ProcessedReading sample)
  (s : SpectrometerSettings sample) (roi : ROI).

Import HorizROIFeature.

(** X2.  [process] keeps the arrays aligned, whatever the ROI: when the
    processed and raw spectra of the reading and the two axes of the
    settings, as far as they are there, all have [n] elements, the arrays of
    the bundle attached as [cropped] all have the same number of elements,
    which is [n] when the ROI is refused and [end - start] otherwise, and
    never more than [n]. *)
Theorem process_keeps_alignment ctl self p sett s roi (n : Z) :
  enabled self = true ->
  processed p <> None ->
  settings_lookup ctl p sett = Some s ->
  get_horizontal_roi (eeprom s) = Some roi ->
  (forall l, In (Some l) [processed p; raw p; wavelengths s; wavenumbers s] ->
     len l = n) ->
  exists c,
    process ctl self (Some p) sett = Ok (Some (set_cropped p c))
    /\ cropped_len roi n <= n
    /\ forall l,
         In (Some l) [processed c; raw c; reference c;
                      pr_wavelengths c; pr_wavenumbers c] ->
         len l = cropped_len roi n.
Proof.
  intros He Hp Hs Hroi Hn.
  exists (cropped_bundle p s roi). split; [now apply process_crops|].
  split.
  - destruct (processed p) as [l0|] eqn:E; [|congruence].
    apply cropped_len_le. rewrite <- (Hn l0) by (simpl; auto).
    unfold len. lia.
  - assert (F : forall o l,
              In o [processed p; raw p; wavelengths s; wavenumbers s] ->
              option_map (crop_to roi) o = Some l ->
              len l = cropped_len roi n).
    { intros [l0|] l Ho E; [|discriminate]. simpl in E.
      injection E as <-. rewrite len_crop_to. now rewrite (Hn l0 Ho). }
    intros l Hl. unfold cropped_bundle in Hl. cbn [processed raw reference
      pr_wavelengths pr_wavenumbers In] in Hl.
    destruct Hl as [H | [H | [H | [H | [H | []]]]]];
      (eapply F; [|exact H]); simpl; auto.
Qed.

End ProcessMore.

Lemma process_keeps_alignment_witness :
  let s : SpectrometerSettings Z :=
    mkSettings (mkEEPROM (Some (mkROI 1 3)) true false) (mkState 0)
               (Some [800; 801; 802; 803]) None false false in
  let p : ProcessedReading Z :=
    mkPR (Some s) (Some [1; 2; 3; 4]) (Some [11; 12; 13; 14])
         None None None None None in
  exists c,
    HorizROIFeature.process (mkCtl (mkMultispec None []) false false false)
      (HorizROIFeature.mk true true) (Some p) None
    = Ok (Some (HorizROIFeature.set_cropped p c))
    /\ HorizROIFeature.cropped_len (mkROI 1 3) 4 <= 4
    /\ forall l,
         In (Some l) [processed c; raw c; reference c;
                      pr_wavelengths c; pr_wavenumbers c] ->
         len l = HorizROIFeature.cropped_len (mkROI 1 3) 4.
Proof.
  intros s p.
  apply (process_keeps_alignment
           (mkCtl (mkMultispec None []) false false false)
           (HorizROIFeature.mk true true) p None s (mkROI 1 3) 4);
    [reflexivity | discriminate | reflexivity | reflexivity |].
  intros l Hl. simpl in Hl.
  destruct Hl as [H | [H | [H | [H | []]]]]; try discriminate;
    injection H as <-; reflexivity.
Defined.

Section FlagInvariant.

Context {sample : Type}.

Import HorizROIFeature.

(** X3.  In every state that the methods of the feature lead to from
    [__init__], whatever spectrometers come and go in between, an enabled
    feature has the user's request behind it. *)
Theorem enabled_implies_requested (self : HorizROIFeature.t) :
  reachable (sample := sample) self ->
  enabled self = true -> user_requested_enabled self = true.
Proof.
  induction 1 as [ctl | ctl self Hr IH | ctl self Hr IH | ctl self Hr IH].
  - unfold init. rewrite update_visibility_flags.
    destruct (current_spectrometer (multispec ctl)); reflexivity.
  - rewrite button_callback_flags.
    destruct (current_spectrometer (multispec ctl)); simpl; [|trivial].
    intros H. apply andb_true_iff in H. tauto.
  - unfold init_hotplug, set_enabled. simpl.
    destruct (current_spectrometer (multispec ctl)); [|discriminate].
    intros H. apply andb_true_iff in H. tauto.
  - rewrite update_visibility_flags.
    destruct (current_spectrometer (multispec ctl)); simpl; [|exact IH].
    intros H. apply andb_true_iff in H. tauto.
Qed.

End FlagInvariant.

Lemma enabled_implies_requested_witness :
  let spec : Spectrometer Z :=
    mkSpectrometer
      (mkSettings (mkEEPROM (Some (mkROI 10 900)) true false) (mkState 0)
                  None None false false) in
  let ctl := mkCtl (mkMultispec (Some spec) [spec]) false false false in
  HorizROIFeature.user_requested_enabled
    (HorizROIFeature.init_hotplug ctl (fst (HorizROIFeature.init ctl)))
  = true.
Proof.
  intros spec ctl.
  apply (enabled_implies_requested (sample := Z)
           (HorizROIFeature.init_hotplug ctl (fst (HorizROIFeature.init ctl)))).
  - apply HorizROIFeature.reach_init_hotplug, HorizROIFeature.reach_init.
  - reflexivity.
Defined.

Section GetitemFacts.

Context {A : Type}.
Implicit Types (l : list A) (i : Z).

Lemma getitem_in_bounds l i :
  in_bounds (len l) i ->
  getitem l i = nth_error l (Z.to_nat i)
  /\ exists a, nth_error l (Z.to_nat i) = Some a.
Proof.
  unfold in_bounds, getitem, len. intros H.
  assert (E : (0 <=? i) && (i <? Z.of_nat (List.length l)) = true)
    by (apply andb_true_iff; split; [apply Z.leb_le | apply Z.ltb_lt]; lia).
  rewrite E. split; [reflexivity|].
  destruct (nth_error l (Z.to_nat i)) as [a|] eqn:N; [eauto|].
  apply nth_error_None in N. lia.
Qed.

Lemma getitem_beyond l i : len l <= i -> getitem l i = None.
Proof.
  unfold getitem, len. intros H.
  assert (E1 : (i <? Z.of_nat (List.length l)) = false)
    by (apply Z.ltb_ge; lia).
  assert (E2 : (i <? 0) = false) by (apply Z.ltb_ge; lia).
  now rewrite E1, E2, !andb_false_r.
Qed.

Lemma getitem_last l :
  0 < len l ->
  getitem l (-1) = nth_error l (List.length l - 1)
  /\ exists a, nth_error l (List.length l - 1) = Some a.
Proof.
  unfold getitem, len. intros H.
  assert (E : (- Z.of_nat (List.length l) <=? -1) && (-1 <? 0) = true)
    by (apply andb_true_iff; split; [apply Z.leb_le; lia | reflexivity]).
  cbn [Z.leb Z.compare andb]. rewrite E.
  replace (Z.to_nat (-1 + Z.of_nat (List.length l)))
    with (List.length l - 1)%nat by lia.
  split; [reflexivity|].
  destruct (nth_error l (List.length l - 1)) as [a|] eqn:N; [eauto|].
  apply nth_error_None in N. lia.
Qed.

End GetitemFacts.

Section RegionFacts.

Context {sample : Type}.
Variable pixels : SpectrometerSettings sample -> Z.
Variable axis : list sample.
Implicit Types (ctl : Controller sample) (cb : CheckBox)
  (spec : Spectrometer sample).

Import HorizROIFeature.

Lemma update_regions_not_editing ctl cb spec :
  is_editing cb = false ->
  update_regions pixels axis ctl cb (Some spec)
  = ([RemoveRoiRegion spec Left; RemoveRoiRegion spec Right], Returned).
Proof.
  intros H. unfold update_regions, update_regions_of. simpl. now rewrite H.
Qed.

(** X4.  While the ROI is not being edited, [cb_editing_callback] only takes
    the two curtains of every spectrometer off the graph, and returns:
    neither the ROI nor the axis is read. *)
Theorem cb_editing_callback_not_editing ctl cb :
  is_editing cb = false ->
  cb_editing_callback pixels axis ctl cb
  = (flat_map (fun spec => [RemoveRoiRegion spec Left;
                            RemoveRoiRegion spec Right])
       (get_spectrometers (multispec ctl)),
     Returned).
Proof.
  intros H. unfold cb_editing_callback.
  induction (get_spectrometers (multispec ctl)) as [|spec rest IH];
    [reflexivity|].
  cbn [update_regions_each flat_map].
  rewrite (update_regions_not_editing ctl cb spec H), IH. reflexivity.
Qed.

(** X5.  While the ROI is edited, for a ROI that [crop] accepts for the
    axis, [update_regions] draws the left curtain from the first point of
    the axis to the first point of the cropped axis, and the right curtain
    from the point at [end] to the last point of the axis, and adds both. *)
Theorem update_regions_bracket_crop ctl cb spec roi :
  is_editing cb = true ->
  get_horizontal_roi (eeprom (settings spec)) = Some roi ->
  start roi < end_ roi ->
  in_bounds (len axis) (start roi) ->
  in_bounds (len axis) (end_ roi) ->
  exists a0 a_start a_end a_last,
    update_regions pixels axis ctl cb (Some spec)
    = ([SetRegion spec Left a0 a_start; SetRegion spec Right a_end a_last;
        AddRoiRegion spec Left; AddRoiRegion spec Right],
       Returned)
    /\ crop ctl (Some axis) None (Some roi) None
       = Ok (Some (slice axis (start roi) (end_ roi)))
    /\ hd_error axis = Some a0
    /\ hd_error (slice axis (start roi) (end_ roi)) = Some a_start
    /\ nth_error axis (Z.to_nat (end_ roi)) = Some a_end
    /\ nth_error axis (List.length axis - 1) = Some a_last.
Proof.
  intros He Hroi Hlt Hs Hend.
  assert (H0 : in_bounds (len axis) 0) by (unfold in_bounds in *; lia).
  assert (Hpos : 0 < len axis) by (unfold in_bounds in *; lia).
  destruct (getitem_in_bounds axis 0 H0) as [G0 [a0 N0]].
  destruct (getitem_in_bounds axis _ Hs) as [Gs [a_start Ns]].
  destruct (getitem_in_bounds axis _ Hend) as [Ge [a_end Ne]].
  destruct (getitem_last axis Hpos) as [Gl [a_last Nl]].
  exists a0, a_start, a_end, a_last.
  split; [|split; [|split; [|split; [|split]]]].
  - unfold update_regions, update_regions_of. cbn [is_None].
    rewrite He, Hroi. cbn [negb].
    rewrite G0, Gs, Ge, Gl, N0, Ns, Ne, Nl. reflexivity.
  - rewrite crop_eq_to, roi_lookup_given. cbn [rbind].
    now rewrite crop_to_in_bounds.
  - destruct axis; [discriminate | exact N0].
  - unfold in_bounds in *.
    assert (K := slice_nth_error axis (start roi) (end_ roi) 0).
    rewrite Z.add_0_r in K. simpl (Z.to_nat 0) in K.
    destruct (slice axis (start roi) (end_ roi)) as [|x xs] eqn:E;
      simpl in K |- *; rewrite <- Ns; apply K; lia.
  - exact Ne.
  - exact Nl.
Qed.

(** X6.  While the ROI is edited, [update_regions] ends in an IndexError
    whenever the end of the ROI is no index of the axis; without a ROI the
    end is [pixels()], so the call ends so on every axis of that many
    points.  No curtain is added then. *)
Theorem update_regions_end_beyond_axis ctl cb spec :
  is_editing cb = true ->
  (forall roi, get_horizontal_roi (eeprom (settings spec)) = Some roi ->
     len axis <= end_ roi) ->
  (get_horizontal_roi (eeprom (settings spec)) = None ->
     len axis <= pixels (settings spec)) ->
  snd (update_regions pixels axis ctl cb (Some spec)) = IndexError
  /\ forall sp region,
       ~ In (AddRoiRegion sp region)
            (fst (update_regions pixels axis ctl cb (Some spec))).
Proof.
  intros He Hroi Hnone.
  unfold update_regions, update_regions_of. cbn [is_None]. rewrite He.
  cbn [negb].
  destruct (get_horizontal_roi (eeprom (settings spec))) as [roi|].
  - rewrite (getitem_beyond axis (end_ roi)) by (now apply Hroi).
    destruct (getitem axis 0), (getitem axis (start roi)); simpl;
      (split; [reflexivity|]); intros sp region H;
      repeat (destruct H as [H|H]; [discriminate|]); exact H.
  - rewrite (getitem_beyond axis (pixels (settings spec)))
      by (now apply Hnone).
    destruct (getitem axis 0); simpl;
      (split; [reflexivity|]); intros sp region H;
      repeat (destruct H as [H|H]; [discriminate|]); exact H.
Qed.

End RegionFacts.

Lemma cb_editing_callback_not_editing_witness :
  let spec : Spectrometer Z :=
    mkSpectrometer
      (mkSettings (mkEEPROM None false false) (mkState 0)
                  None None false false) in
  let ctl := mkCtl (mkMultispec (Some spec) [spec]) false false false in
  HorizROIFeature.cb_editing_callback (fun _ => 4) [800; 801; 802; 803] ctl
    (mkCheckBox true false)
  = ([HorizROIFeature.RemoveRoiRegion spec HorizROIFeature.Left;
      HorizROIFeature.RemoveRoiRegion spec HorizROIFeature.Right],
     HorizROIFeature.Returned).
Proof.
  intros spec ctl.
  apply (cb_editing_callback_not_editing (fun _ => 4) [800; 801; 802; 803]
           ctl (mkCheckBox true false)).
  reflexivity.
Defined.

Lemma update_regions_bracket_crop_witness :
  let spec : Spectrometer Z :=
    mkSpectrometer
      (mkSettings (mkEEPROM (Some (mkROI 1 3)) true false) (mkState 0)
                  None None false false) in
  let ctl := mkCtl (mkMultispec (Some spec) [spec]) false false false in
  exists a0 a_start a_end a_last,
    HorizROIFeature.update_regions (fun _ => 4) [800; 801; 802; 803] ctl
      (mkCheckBox true true) (Some spec)
    = ([HorizROIFeature.SetRegion spec HorizROIFeature.Left a0 a_start;
        HorizROIFeature.SetRegion spec HorizROIFeature.Right a_end a_last;
        HorizROIFeature.AddRoiRegion spec HorizROIFeature.Left;
        HorizROIFeature.AddRoiRegion spec HorizROIFeature.Right],
       HorizROIFeature.Returned)
    /\ HorizROIFeature.crop ctl (Some [800; 801; 802; 803]) None
         (Some (mkROI 1 3)) None
       = Ok (Some (slice [800; 801; 802; 803] 1 3))
    /\ hd_error [800; 801; 802; 803] = Some a0
    /\ hd_error (slice [800; 801; 802; 803] 1 3) = Some a_start
    /\ nth_error [800; 801; 802; 803] (Z.to_nat 3) = Some a_end
    /\ nth_error [800; 801; 802; 803] (4 - 1) = Some a_last.
Proof.
  intros spec ctl.
  apply (update_regions_bracket_crop (fun _ => 4) [800; 801; 802; 803] ctl
           (mkCheckBox true true) spec (mkROI 1 3));
    [reflexivity | reflexivity | simpl; lia
    | unfold in_bounds, len; simpl; lia
    | unfold in_bounds, len; simpl; lia].
Defined.

Lemma update_regions_end_beyond_axis_witness :
  let spec : Spectrometer Z :=
    mkSpectrometer
      (mkSettings (mkEEPROM None false false) (mkState 0)
                  None None false false) in
  let ctl := mkCtl (mkMultispec (Some spec) [spec]) false false false in
  snd (HorizROIFeature.update_regions (fun _ => 4) [800; 801; 802; 803] ctl
         (mkCheckBox true true) (Some spec))
  = HorizROIFeature.IndexError.
Proof.
  intros spec ctl.
  apply (update_regions_end_beyond_axis (fun _ => 4) [800; 801; 802; 803] ctl
           (mkCheckBox true true) spec).
  - reflexivity.
  - intros roi H. discriminate H.
  - intros _. unfold len. simpl. lia.
Defined.

(* ================================================================== *)
(** * Further properties of ExternalTriggerFeature and RamanModeFeature *)
(* ================================================================== *)

Section TriggerMore.

Context {sample : Type}.
Variables TRIGGER_SOURCE_INTERNAL TRIGGER_SOURCE_EXTERNAL : Z.
Implicit Types (ms : Multispec sample) (self : ExternalTriggerFeature.t).

Import ExternalTriggerFeature.

(** What [enable_callback] does after [update_visibility], in closed form. *)
Lemma enable_callback_after_update_visibility_eq ms self spec :
  current_spectrometer ms = Some spec ->
  let self' := update_visibility TRIGGER_SOURCE_EXTERNAL ms self in
  let r := enable_callback TRIGGER_SOURCE_INTERNAL TRIGGER_SOURCE_EXTERNAL
             ms self' in
  let ts := trigger_source (state (settings spec)) in
  enabled (fst r) = enabled self'
  /\ snd r =
     if (supports_triggering (settings spec) && (ts =? TRIGGER_SOURCE_EXTERNAL))
        || (TRIGGER_SOURCE_INTERNAL =? ts)
     then []
     else [ChangeDeviceSetting "trigger_source" TRIGGER_SOURCE_INTERNAL;
           LogWarn TRIGGER_SOURCE_INTERNAL; ResetAcquisitionTimeout].
Proof.
  intros Hs. unfold update_visibility, enable_callback. rewrite Hs.
  cbv zeta. cbn [cb_enabled enabled isChecked setChecked setVisible fst snd].
  destruct (supports_triggering (settings spec)
            && (trigger_source (state (settings spec))
                =? TRIGGER_SOURCE_EXTERNAL)) eqn:En.
  - apply andb_true_iff in En. destruct En as [_ En].
    apply Z.eqb_eq in En. rewrite En, Z.eqb_refl. split; reflexivity.
  - cbn [orb].
    destruct (TRIGGER_SOURCE_INTERNAL =? trigger_source (state (settings spec)));
      split; reflexivity.
Qed.

(** X7.  [enable_callback] run right after [update_visibility] (as the
    [stateChanged] signal of the refreshed checkbox runs it) keeps [enabled]
    as [update_visibility] computed it, never shows the "waiting for
    trigger" message, and writes at most the internal trigger source to the
    device: nothing at all when the device supports triggering and is on the
    external source, or is on the internal one. *)
Theorem enable_callback_after_update_visibility ms self :
  let self' := update_visibility TRIGGER_SOURCE_EXTERNAL ms self in
  let r := enable_callback TRIGGER_SOURCE_INTERNAL TRIGGER_SOURCE_EXTERNAL
             ms self' in
  enabled (fst r) = enabled self'
  /\ (forall msg, ~ In (MarqueeInfo msg) (snd r))
  /\ (forall name value,
        In (ChangeDeviceSetting name value) (snd r) ->
        name = "trigger_source" /\ value = TRIGGER_SOURCE_INTERNAL)
  /\ (forall spec,
        current_spectrometer ms = Some spec ->
        (supports_triggering (settings spec) = true
         /\ trigger_source (state (settings spec)) = TRIGGER_SOURCE_EXTERNAL)
        \/ trigger_source (state (settings spec)) = TRIGGER_SOURCE_INTERNAL ->
        snd r = []).
Proof.
  intros self' r.
  destruct (current_spectrometer ms) as [spec|] eqn:Hs.
  - destruct (enable_callback_after_update_visibility_eq ms self spec Hs)
      as [He Hr].
    fold self' in He, Hr. fold r in He, Hr.
    split; [exact He|]. rewrite Hr.
    set (ts := trigger_source (state (settings spec))).
    destruct ((supports_triggering (settings spec)
               && (ts =? TRIGGER_SOURCE_EXTERNAL))
              || (TRIGGER_SOURCE_INTERNAL =? ts)) eqn:G.
    + split; [intros msg []|]. split; [intros name value []|]. reflexivity.
    + split; [|split].
      * intros msg H. repeat (destruct H as [H|H]; [discriminate|]). exact H.
      * intros name value H.
        destruct H as [H|H]; [injection H as <- <-; split; reflexivity|].
        repeat (destruct H as [H|H]; [discriminate|]). destruct H.
      * intros sp [= <-] H. exfalso.
        apply orb_false_iff in G. destruct G as [G1 G2].
        destruct H as [[H1 H2] | H].
        -- fold ts in H2. rewrite H1, H2, Z.eqb_refl in G1. discriminate.
        -- fold ts in H. rewrite H, Z.eqb_refl in G2. discriminate.
  - assert (E : r = (self', [])).
    { unfold r, enable_callback. now rewrite Hs. }
    rewrite E. cbn [fst snd].
    split; [reflexivity|]. split; [intros msg []|].
    split; [intros name value []|]. reflexivity.
Qed.

End TriggerMore.

Section RamanMore.

Context {sample : Type}.
Implicit Types (ctl : Controller sample) (d : RamanModeFeature.Dialogs)
  (self : RamanModeFeature.t).

Import RamanModeFeature.

(** X8.  When the box is visible and checked, the warning is not suppressed
    and the user declines it, [enable_callback] unchecks the box and
    returns: it calls neither [set_restriction] nor [clear_restriction],
    stores nothing, and leaves [enabled] as it was, also when it was True. *)
Theorem enable_callback_declined d self :
  visible self = true ->
  isChecked (cb_enable self) = true ->
  suppress_raman_mode_warning d = false ->
  msgbox_ok d = false ->
  enable_callback d self
  = (mk (setChecked (cb_enable self) false) (enabled self) (visible self),
     d, []).
Proof.
  intros Hv Hc Hs Ho. unfold enable_callback, confirm.
  rewrite Hv, Hc, Hs, Ho. cbn.
  destruct d as [s o c]. simpl in Hs. subst s. reflexivity.
Qed.

(** X9.  Unless the user declines, [enable_callback] leaves the feature
    enabled exactly when the box is visible and checked, and restricts the
    laser control exactly when the feature ends enabled: one
    [set_restriction] then, one [clear_restriction] otherwise. *)
Theorem enable_callback_restriction d self :
  (visible self && isChecked (cb_enable self) = true ->
   fst (confirm d) = true) ->
  let r := enable_callback d self in
  enabled (fst (fst r)) = visible self && isChecked (cb_enable self)
  /\ cb_enable (fst (fst r)) = cb_enable self
  /\ snd r = [if enabled (fst (fst r))
              then SetRestriction LASER_CONTROL_DISABLE_REASON
              else ClearRestriction LASER_CONTROL_DISABLE_REASON].
Proof.
  intros Hc. unfold enable_callback.
  destruct (visible self && isChecked (cb_enable self)) eqn:E.
  - specialize (Hc eq_refl).
    destruct (confirm d) as [ok suppress]. simpl in Hc. subst ok.
    repeat split.
  - repeat split.
Qed.

Lemma disconnect_enabled ctl d self :
  enabled (fst (fst (disconnect ctl d self)))
  = if shows_raman ctl then false else enabled self.
Proof.
  unfold disconnect, update_visibility, shows_raman, enable_callback.
  destruct (match current_spectrometer (multispec ctl) with
            | None => false
            | Some spec => _
            end); reflexivity.
Qed.

(** X10.  [disconnect] never asks for confirmation: it leaves the box
    unchecked and the stored option as it was, and makes the one call
    [clear_restriction].  It resets [enabled] only while the box stays
    visible; when the box is hidden (as without a spectrometer), [enabled]
    keeps its value. *)
Theorem disconnect_clears ctl d self :
  let r := disconnect ctl d self in
  isChecked (cb_enable (fst (fst r))) = false
  /\ snd (fst r) = d
  /\ snd r = [ClearRestriction LASER_CONTROL_DISABLE_REASON]
  /\ visible (fst (fst r)) = shows_raman ctl
  /\ enabled (fst (fst r)) = if shows_raman ctl then false else enabled self.
Proof.
  unfold disconnect, update_visibility, shows_raman, enable_callback.
  destruct (match current_spectrometer (multispec ctl) with
            | None => false
            | Some spec => _
            end); cbn; repeat split.
Qed.

Variable integration_time_ms : Spectrometer sample -> Z.



(** X12.  A disconnect without a current spectrometer does not turn an
    enabled feature off: the next [take_one_start] still clears the dark and
    forces the laser button on. *)
Theorem take_one_start_after_disconnect ctl ctl' d (n : Z) self :
  current_spectrometer (multispec ctl) = None ->
  enabled self = true ->
  exists deadlines,
    take_one_start integration_time_ms ctl' n
      (fst (fst (disconnect ctl d self)))
    = DarkClear true :: deadlines ++ [RefreshLaserButtons (Some true)].
Proof.
  intros Hs He.
  pose proof (disconnect_enabled ctl d self) as H.
  unfold shows_raman in H. rewrite Hs in H.
  unfold take_one_start. rewrite H, He. eexists. reflexivity.
Qed.

End RamanMore.

Lemma enable_callback_declined_witness :
  RamanModeFeature.enable_callback
    (RamanModeFeature.mkDialogs false false false)
    (RamanModeFeature.mk (mkCheckBox true true) true true)
  = (RamanModeFeature.mk (mkCheckBox true false) true true,
     RamanModeFeature.mkDialogs false false false, []).
Proof.
  apply (enable_callback_declined
           (RamanModeFeature.mkDialogs false false false)
           (RamanModeFeature.mk (mkCheckBox true true) true true));
    reflexivity.
Defined.

Lemma enable_callback_restriction_witness :
  snd (RamanModeFeature.enable_callback
         (RamanModeFeature.mkDialogs false true true)
         (RamanModeFeature.mk (mkCheckBox true true) false true))
  = [RamanModeFeature.SetRestriction
       RamanModeFeature.LASER_CONTROL_DISABLE_REASON].
Proof.
  apply (enable_callback_restriction
           (RamanModeFeature.mkDialogs false true true)
           (RamanModeFeature.mk (mkCheckBox true true) false true)).
  reflexivity.
Defined.

Lemma take_one_start_after_disconnect_witness :
  let spec : Spectrometer Z :=
    mkSpectrometer
      (mkSettings (mkEEPROM None false true) (mkState 0)
                  None None false true) in
  let gone : Controller Z := mkCtl (mkMultispec None []) false true true in
  let back := mkCtl (mkMultispec (Some spec) [spec]) false true true in
  exists deadlines,
    RamanModeFeature.take_one_start (fun _ => 100) back 5
      (fst (fst (RamanModeFeature.disconnect gone
                   (RamanModeFeature.mkDialogs false true false)
                   (RamanModeFeature.mk (mkCheckBox true true) true true))))
    = RamanModeFeature.DarkClear true
      :: deadlines ++ [RamanModeFeature.RefreshLaserButtons (Some true)].
Proof.
  intros spec gone back.
  apply (take_one_start_after_disconnect (fun _ => 100) gone back
           (RamanModeFeature.mkDialogs false true false) 5
           (RamanModeFeature.mk (mkCheckBox true true) true true));
    reflexivity.
Defined.

(* ================================================================== *)
(** * Properties of the parsers of enlighten/common.py *)
(* ================================================================== *)

Section ParseFacts.

Import Str.
Local Open Scope string_scope.
Implicit Types (a b s w sub : string) (c : ascii).

Lemma upper_char_idempotent c : upper_char (upper_char c) = upper_char c.
Proof.
  destruct c as [[] [] [] [] [] [] [] []]; reflexivity.
Qed.

Lemma upper_lower_char c : upper_char (lower_char c) = upper_char c.
Proof.
  destruct c as [[] [] [] [] [] [] [] []]; reflexivity.
Qed.

Lemma upper_idempotent s : upper (upper s) = upper s.
Proof.
  induction s as [|c s IH]; simpl; [reflexivity|].
  now rewrite upper_char_idempotent, IH.
Qed.

Lemma upper_lower s : upper (lower s) = upper s.
Proof.
  induction s as [|c s IH]; simpl; [reflexivity|].
  now rewrite upper_lower_char, IH.
Qed.

Lemma upper_app a b : upper (a ++ b) = upper a ++ upper b.
Proof.
  induction a as [|c a IH]; simpl; [reflexivity | now rewrite IH].
Qed.

Lemma prefix_app sub b : String.prefix sub (sub ++ b) = true.
Proof.
  induction sub as [|c sub IH]; simpl; [now destruct b|].
  destruct (ascii_dec c c); [exact IH | congruence].
Qed.

Lemma contains_of_prefix sub s :
  String.prefix sub s = true -> contains sub s = true.
Proof. intros H. destruct s; cbn [contains]; now rewrite H. Qed.

Lemma contains_prefix sub b : contains sub (sub ++ b) = true.
Proof. apply contains_of_prefix, prefix_app. Qed.

(** A string contains what stands between any two strings. *)
Lemma contains_app sub a b : contains sub (a ++ sub ++ b) = true.
Proof.
  induction a as [|c a IH].
  - exact (contains_prefix sub b).
  - cbn [append contains]. rewrite IH. apply orb_true_r.
Qed.

(** X13.  [ViewsHelper.parse] does not tell the letter case: a string, its
    upper-case form and its lower-case form are parsed alike. *)
Theorem ViewsHelper_parse_case_insensitive s :
  ViewsHelper.parse (upper s) = ViewsHelper.parse s
  /\ ViewsHelper.parse (lower s) = ViewsHelper.parse s.
Proof.
  unfold ViewsHelper.parse. now rewrite upper_idempotent, upper_lower.
Qed.

(** X14.  The view is read back from its pretty name for the two views that
    have one, Scope and Hardware, and for no other: Settings and Absorbance
    are shown as "UNKNOWN", which parses to Scope. *)
Theorem ViewsHelper_parse_pretty_name (v : Views) :
  ViewsHelper.parse (ViewsHelper.get_pretty_name (Views_value v))
  = Ok (match v with HARDWARE => HARDWARE | _ => SCOPE end)
  /\ (ViewsHelper.parse (ViewsHelper.get_pretty_name (Views_value v)) = Ok v
      <-> v = SCOPE \/ v = HARDWARE).
Proof.
  destruct v; (split; [reflexivity|]); split;
    try (intros H; vm_compute in H; discriminate);
    try (intros [H|H]; discriminate);
    try (intros _; reflexivity);
    try (intros _; auto).
Qed.

(** X15.  A string that names the hardware view anywhere, in any letter
    case, is parsed as HARDWARE whatever else it holds. *)
Theorem ViewsHelper_parse_hardware a w b :
  upper w = "HARDWARE" ->
  ViewsHelper.parse (a ++ w ++ b) = Ok HARDWARE.
Proof.
  intros Hw. unfold ViewsHelper.parse.
  rewrite !upper_app, Hw, contains_app. reflexivity.
Qed.

(** X16.  A string that names the Raman view, in any letter case, and
    neither hardware nor scope, is not parsed: reading [Views.RAMAN] raises
    AttributeError. *)
Theorem ViewsHelper_parse_raman_raises a w b :
  upper w = "RAMAN" ->
  contains "HARDWARE" (upper (a ++ w ++ b)) = false ->
  contains "SCOPE" (upper (a ++ w ++ b)) = false ->
  ViewsHelper.parse (a ++ w ++ b) = Raise (AttributeError "RAMAN").
Proof.
  intros Hw Hh Hs. unfold ViewsHelper.parse. rewrite Hh, Hs.
  rewrite !upper_app, Hw, contains_app. reflexivity.
Qed.

(** X17.  [OperationModesHelper.parse] returns for no string: each of its
    three [return]s reads a member that [OperationModes] does not have. *)
Theorem OperationModesHelper_parse_raises s :
  exists name, OperationModesHelper.parse s = Raise (AttributeError name).
Proof.
  unfold OperationModesHelper.parse.
  destruct (contains "SETUP" (upper s)); [eauto|].
  destruct (contains "CAPTURE" (upper s)); eauto.
Qed.

End ParseFacts.

Lemma ViewsHelper_parse_hardware_witness :
  ViewsHelper.parse "Scope / hardware capture" = Ok HARDWARE.
Proof.
  apply (ViewsHelper_parse_hardware "Scope / " "hardware" " capture").
  reflexivity.
Defined.

Lemma ViewsHelper_parse_raman_raises_witness :
  ViewsHelper.parse "Raman" = Raise (AttributeError "RAMAN").
Proof.
  apply (ViewsHelper_parse_raman_raises "" "Raman" ""); reflexivity.
Defined.

(* ================================================================== *)
(** * Properties of the Marquee *)
(* ================================================================== *)

Section MarqueeFacts.

Import Marquee.
Implicit Types (self : Marquee.t).

Lemma drawer_in_order_hidden self :
  showing_something self = false -> label self = EmptyString ->
  frame_opacity self = 0 -> clear_timer self = None ->
  drawer_in_order self.
Proof.
  intros Hs Hl Ho Ht. unfold drawer_in_order. rewrite Hs, Hl, Ho, Ht.
  repeat split; try discriminate.
Qed.

Lemma schedule_clear_immediate_in_order self :
  drawer_in_order (schedule_clear true self).
Proof. apply drawer_in_order_hidden; reflexivity. Qed.

(** A message just shown leaves the drawer in order. *)
Lemma show_immediate_in_order benign self :
  showing_something self = true -> frame_opacity self = 1 ->
  drawer_in_order (fst (show_immediate benign self)).
Proof.
  intros Hs Ho. unfold show_immediate, schedule_clear, reset_timers.
  cbn [fst with_clear_timer persist].
  destruct (persist self) eqn:Hp; cbn [negb];
    unfold drawer_in_order; cbn; rewrite ?Hs, ?Ho, ?Hp;
    repeat split; try discriminate; try congruence.
Qed.

Lemma toast_drawer msg p e self :
  drawer_in_order self -> drawer_in_order (fst (toast msg p e self)).
Proof. unfold toast. destruct (negb (p || e)); trivial. Qed.

Lemma fade_toast_drawer r self :
  drawer_in_order self -> drawer_in_order (fst (fade_toast r self)).
Proof.
  unfold fade_toast. destruct (toast_dialog self); [|trivial].
  destruct r; [trivial|]. cbn [with_toast toast_opacity].
  destruct (PrimFloat.ltb _ _); trivial.
Qed.

(** X18.  In every state that the messages, the toasts, the clearing calls
    and the timers lead to, the drawer is in order: hidden, it shows no text
    and no clear timer runs; a clear timer that runs belongs to a shown,
    non-persistent message and was started with 3000 ms plus the extra time
    of that message. *)
Theorem reachable_drawer_in_order self :
  reachable self -> drawer_in_order self.
Proof.
  induction 1 as
    [ | msg p tok b ex per lnk self Hr IH | msg p tok b ex self Hr IH
      | tok f self Hr IH | self Hr IH | self Hr IH | self Hr IH
      | msg p e self Hr IH | r self Hr IH ].
  - apply drawer_in_order_hidden; reflexivity.
  - unfold info. destruct msg as [msg|]; [|exact IH].
    apply show_immediate_in_order; destruct per as [per|];
      try destruct (per * 1000 >? DRAWER_DURATION_MS); reflexivity.
  - unfold error. destruct msg as [msg|]; [|exact IH].
    apply show_immediate_in_order; reflexivity.
  - unfold clear. destruct (_ || _); [|exact IH].
    apply schedule_clear_immediate_in_order.
  - apply schedule_clear_immediate_in_order.
  - unfold clear_timer_timeout. destruct (clear_timer self); [|exact IH].
    apply drawer_in_order_hidden; reflexivity.
  - destruct IH as [I1 [I2 I3]]. unfold drawer_in_order, stop. cbn.
    repeat split; try discriminate; try (apply I1; assumption).
    now apply I2.
  - now apply toast_drawer.
  - unfold toast_timer_timeout. destruct (toast_timer self); [|exact IH].
    now apply fade_toast_drawer.
Qed.

(** X19.  A message that is not persistent is shown with its text, and the
    clear timer is started with at least the duration of the drawer: with
    [period_sec * 1000] when that is more than 3000 ms, whatever [extra_ms]
    says, and with 3000 ms plus [extra_ms] otherwise. *)
Theorem info_starts_clear_timer msg token benign (extra_ms : Z) period_sec
    link self :
  0 <= extra_ms ->
  let s := fst (info (Some msg) false token benign extra_ms period_sec link
                  self) in
  showing_something s = true
  /\ label s = msg
  /\ exists ms,
       clear_timer s = Some ms
       /\ DRAWER_DURATION_MS <= ms
       /\ ms = match period_sec with
               | Some p =>
                   if p * 1000 >? DRAWER_DURATION_MS then p * 1000
                   else DRAWER_DURATION_MS + extra_ms
               | None => DRAWER_DURATION_MS + extra_ms
               end.
Proof.
  intros Hex. unfold info, show_immediate, schedule_clear, reset_timers.
  unfold DRAWER_DURATION_MS.
  destruct period_sec as [p|].
  - destruct (p * 1000 >? 3000) eqn:E; cbn -[Z.mul Z.add Z.sub].
    + repeat split. eexists. split; [reflexivity|].
      apply Z.gtb_lt in E. split; lia.
    + repeat split. eexists. split; [reflexivity|]. split; lia.
  - cbn -[Z.mul Z.add Z.sub].
    repeat split. eexists. split; [reflexivity|]. split; lia.
Qed.

Lemma token_eqb_eq (a b : option string) :
  token_eqb a b = true <-> a = b.
Proof.
  destruct a as [x|], b as [y|]; simpl; split; intros H;
    try discriminate; try reflexivity.
  - apply String.eqb_eq in H. now subst.
  - injection H as <-. apply String.eqb_refl.
Qed.

(** X20.  A persistent message stays: no clear timer is started for it, and
    [clear] without [force] removes it only when called with a token that is
    not empty and is the token of the message.  [clear] with [force] and the
    close button always remove it. *)
Theorem persistent_message_cleared_by_token msg token benign (extra_ms : Z)
    period_sec link tok self :
  let s := fst (info (Some msg) true token benign extra_ms period_sec link
                  self) in
  showing_something s = true
  /\ clear_timer s = None
  /\ clear_timer_timeout s = s
  /\ (showing_something (clear tok false s) = false
      <-> truthy_str tok = true /\ tok = token)
  /\ showing_something (clear tok true s) = false
  /\ showing_something (close_callback s) = false.
Proof.
  assert (P : forall s0, persist s0 = true ->
            showing_something s0 = true ->
            let s := fst (show_immediate benign s0) in
            showing_something s = true
            /\ clear_timer s = None
            /\ clear_timer_timeout s = s
            /\ (showing_something (clear tok false s) = false
                <-> truthy_str tok = true
                    /\ token_eqb tok (last_token s0) = true)
            /\ showing_something (clear tok true s) = false
            /\ showing_something (close_callback s) = false).
  { intros s0 Hp Hs. unfold show_immediate, schedule_clear, reset_timers.
    cbn [fst with_clear_timer persist negb]. rewrite Hp. cbn [negb].
    split; [exact Hs|]. split; [reflexivity|]. split; [reflexivity|].
    split; [|split; reflexivity].
    unfold clear. cbn [persist last_token with_clear_timer].
    rewrite Hp. cbn [negb orb].
    destruct (truthy_str tok && token_eqb tok (last_token s0)) eqn:E.
    - apply andb_true_iff in E. split; [intros _; exact E | reflexivity].
    - cbn [showing_something with_clear_timer]. rewrite Hs. split.
      + discriminate.
      + intros [H1 H2]. rewrite H1, H2 in E. discriminate. }
  unfold info.
  destruct period_sec as [p|];
    [destruct (p * 1000 >? DRAWER_DURATION_MS)|];
    match goal with
    | |- context [show_immediate benign ?s0] =>
        destruct (P s0 eq_refl eq_refl) as [P1 [P2 [P3 [P4 [P5 P6]]]]]
    end;
    (split; [exact P1|]); (split; [exact P2|]); (split; [exact P3|]);
    (split; [|split; [exact P5 | exact P6]]);
    rewrite P4; cbn [last_token with_label show]; rewrite token_eqb_eq;
    reflexivity.
Qed.

Lemma toast_timer_timeouts_stopped raises self :
  toast_timer self = None -> toast_timer_timeouts raises self = self.
Proof.
  revert self. induction raises as [|r raises IH]; intros self H;
    [reflexivity|].
  cbn [toast_timer_timeouts]. unfold toast_timer_timeout. rewrite H.
  now apply IH.
Qed.

End MarqueeFacts.

Lemma reachable_drawer_in_order_witness :
  Marquee.drawer_in_order
    (fst (Marquee.info (Some "waiting for trigger") false None None 0 None
            None Marquee.init)).
Proof.
  apply reachable_drawer_in_order.
  apply Marquee.reach_info, Marquee.reach_init.
Defined.

Lemma info_starts_clear_timer_witness :
  Marquee.clear_timer
    (fst (Marquee.info (Some "saved") false None None 500 (Some 10) None
            Marquee.init))
  = Some 10000.
Proof.
  destruct (info_starts_clear_timer "saved" None None 500 (Some 10) None
              Marquee.init) as [_ [_ [ms [Ht [_ Hms]]]]]; [lia|].
  rewrite Ht, Hms. reflexivity.
Defined.

Section ToastFacts.

Import Marquee.
Import PrimFloat.
Implicit Types (self : Marquee.t).

(** The opacity stays above zero for 19 turns and not for the 20th. *)
Lemma fade_opacity_positive (k : nat) :
  (k < 19)%nat -> PrimFloat.ltb 0%float (fade_opacity (S k)) = true.
Proof.
  intros H.
  do 19 (destruct k as [|k]; [vm_compute; reflexivity|]).
  lia.
Qed.

Lemma fade_opacity_spent :
  PrimFloat.ltb 0%float (fade_opacity 20) = false.
Proof. vm_compute. reflexivity. Qed.

Lemma timeout_raises self k d :
  fading self k d ->
  toast_timer (fst (toast_timer_timeout true self)) = None
  /\ toast_dialog (fst (toast_timer_timeout true self)) = None.
Proof.
  intros [[ms Ht] [Hd Ho]]. unfold toast_timer_timeout, fade_toast.
  rewrite Ht. cbn [with_toast toast_dialog]. rewrite Hd. split; reflexivity.
Qed.

Lemma timeout_fades self k d :
  fading self k d -> (k < 19)%nat ->
  fading (fst (toast_timer_timeout false self)) (S k) d
  /\ toast_timer (fst (toast_timer_timeout false self))
     = Some TOAST_FADE_STEP_MS.
Proof.
  intros [[ms Ht] [Hd Ho]] Hk. unfold toast_timer_timeout, fade_toast.
  rewrite Ht. cbn [with_toast toast_dialog toast_opacity toast_timer].
  rewrite Hd, Ho.
  change (PrimFloat.sub (fade_opacity k) TOAST_FADE_STEP_OPACITY_PERCENT)
    with (fade_opacity (S k)).
  rewrite (fade_opacity_positive k Hk).
  cbn [fst with_toast toast_dialog toast_opacity toast_timer].
  unfold fading. cbn [with_toast toast_dialog toast_opacity toast_timer].
  repeat split. eexists. reflexivity.
Qed.

Lemma timeout_closes self d :
  fading self 19 d ->
  toast_timer_timeout false self
  = (with_toast self None None (fade_opacity 20), [DialogClose]).
Proof.
  intros [[ms Ht] [Hd Ho]]. unfold toast_timer_timeout, fade_toast.
  rewrite Ht. cbn [with_toast toast_dialog toast_opacity toast_timer].
  rewrite Hd, Ho.
  change (PrimFloat.sub (fade_opacity 19) TOAST_FADE_STEP_OPACITY_PERCENT)
    with (fade_opacity 20).
  rewrite fade_opacity_spent. reflexivity.
Qed.

Lemma fade_ends raises : forall self k d,
  fading self k d -> (k <= 19)%nat ->
  List.length raises = (20 - k)%nat ->
  toast_dialog (toast_timer_timeouts raises self) = None
  /\ toast_timer (toast_timer_timeouts raises self) = None.
Proof.
  induction raises as [|r raises IH]; intros self k d Hf Hk Hlen.
  - cbn [List.length] in Hlen. lia.
  - cbn [toast_timer_timeouts]. destruct r.
    + destruct (timeout_raises self k d Hf) as [Ht Hd].
      rewrite toast_timer_timeouts_stopped by exact Ht. now split.
    + destruct (Nat.eq_dec k 19) as [->|Hne].
      * rewrite (timeout_closes self d Hf). cbn [fst].
        rewrite toast_timer_timeouts_stopped by reflexivity.
        split; reflexivity.
      * destruct (timeout_fades self k d Hf) as [Hf' _]; [lia|].
        apply (IH _ (S k) d Hf'); [lia|]. cbn [List.length] in Hlen. lia.
Qed.

Lemma fade_goes_on (j : nat) : forall self k d,
  fading self k d -> (k + j <= 19)%nat ->
  fading (toast_timer_timeouts (repeat false j) self) (k + j) d
  /\ ((0 < j)%nat ->
      toast_timer (toast_timer_timeouts (repeat false j) self)
      = Some TOAST_FADE_STEP_MS).
Proof.
  induction j as [|j IH]; intros self k d Hf Hk.
  - rewrite Nat.add_0_r. split; [exact Hf | lia].
  - cbn [repeat toast_timer_timeouts].
    destruct (timeout_fades self k d Hf) as [Hf' Ht]; [lia|].
    destruct (IH _ (S k) d Hf') as [H1 H2]; [lia|].
    rewrite Nat.add_succ_r. split; [exact H1|].
    intros _. destruct j as [|j]; [exact Ht | apply H2; lia].
Qed.

(** X21.  The fade of a toast ends.  A toast that is neither persistent nor
    an error starts the toast timer with 3000 ms; after the timer has run
    out 20 times no timer runs and the dialog is forgotten, whichever of the
    calls on the dialog raised.  When none raises, the first 19 times lower
    the opacity and start the timer again with 75 ms, and the 20th closes
    the dialog. *)
Theorem toast_fade_ends msg raises self :
  List.length raises = 20%nat ->
  let s0 := fst (toast msg false false self) in
  toast_timer s0 = Some TOAST_DURATION_MS
  /\ toast_dialog (toast_timer_timeouts raises s0) = None
  /\ toast_timer (toast_timer_timeouts raises s0) = None
  /\ toast_dialog (toast_timer_timeouts (repeat false 19) s0)
     = Some (mkDialog msg false)
  /\ toast_timer (toast_timer_timeouts (repeat false 19) s0)
     = Some TOAST_FADE_STEP_MS
  /\ snd (toast_timer_timeout false (toast_timer_timeouts (repeat false 19) s0))
     = [DialogClose].
Proof.
  intros Hlen s0.
  assert (Hf : fading s0 0 (mkDialog msg false)).
  { unfold fading, s0, toast. cbn. repeat split. eexists. reflexivity. }
  split; [reflexivity|].
  destruct (fade_ends raises s0 0 _ Hf) as [H1 H2]; [lia | exact Hlen |].
  split; [exact H1|]. split; [exact H2|].
  destruct (fade_goes_on 19 s0 0 _ Hf) as [Hf19 Ht19]; [lia|].
  cbn [Nat.add] in Hf19.
  split; [apply Hf19|]. split; [apply Ht19; lia|].
  now rewrite (timeout_closes _ _ Hf19).
Qed.

End ToastFacts.

Lemma toast_fade_ends_witness :
  Marquee.toast_dialog
    (Marquee.toast_timer_timeouts (repeat false 20)
       (fst (Marquee.toast "saved" false false Marquee.init)))
  = None.
Proof.
  apply (toast_fade_ends "saved" (repeat false 20) Marquee.init).
  reflexivity.
Defined.

(* ================================================================== *)
(** * Further properties of CloudManager *)
(* ================================================================== *)

Section RestoreMore.

Variable ID_POOL_ID : string.
Variable w : World.
Implicit Types (self : CloudManager.t) (log : list CloudManager.event).

Import CloudManager.

Ltac run_cloud :=
  cbv beta iota zeta delta
    [bind try_except get put emit lift ret raise setText setIcon exec_
     bucket_download_file download_failed eeprom_editor_import_eeprom
     fst snd].

(** X22.  When the user cancels the prompt, [perform_restore] still
    exchanges the credentials and keeps the session and the bucket, and then
    returns: nothing is downloaded, imported or shown. *)
Theorem perform_restore_cancelled self log text :
  getText w = (text, false) ->
  session_ok ID_POOL_ID w ->
  exists sess,
    perform_restore ID_POOL_ID w (self, log)
    = (Ok tt,
       (mk (result_message self) (Some sess) (Some "eeprom-factory-files"),
        log)).
Proof.
  intros Hp Hs.
  destruct (setup_connection_ok ID_POOL_ID w self log Hs) as [sess Hc].
  exists sess. unfold perform_restore, prompt_for_serial. rewrite Hp.
  cbn [negb]. cbv beta iota delta [bind ret]. rewrite Hc. reflexivity.
Qed.

(** X23.  When the download fails, [perform_restore] shows the one message
    "Error retrieving EEPROM file from server." and returns: the EEPROM
    editor is not called and no other message follows. *)
Theorem perform_restore_download_fails self log text data_dir e :
  getText w = (text, true) ->
  session_ok ID_POOL_ID w ->
  get_default_data_dir w = Ok data_dir ->
  download_file w "eeprom-factory-files" (text ++ ".json")
    (os_path_join w data_dir ["eeprom_backups"; (text ++ ".json")%string])
  = Raise e ->
  exists self',
    perform_restore ID_POOL_ID w (self, log)
    = (Ok tt,
       (self',
        log ++ [DownloadFile "eeprom-factory-files" (text ++ ".json")
                  (os_path_join w data_dir
                     ["eeprom_backups"; (text ++ ".json")%string]);
                Exec retrieving_error])).
Proof.
  intros Hp Hs Hd He.
  destruct (setup_connection_ok ID_POOL_ID w self log Hs) as [sess Hc].
  unfold perform_restore, prompt_for_serial. rewrite Hp. cbn [negb].
  cbv beta iota delta [bind ret]. rewrite Hc.
  unfold attempt_download. rewrite Hd. run_cloud. cbn [eeprom_bucket].
  rewrite He. rewrite <- app_assoc. eexists. reflexivity.
Qed.

(** X24.  Off Windows and without [HOME] in the environment, the KeyError of
    [get_default_data_dir] is caught by [attempt_download]: no download is
    asked for, the message is shown, and the answer is the empty path and
    False. *)
Theorem attempt_download_without_home serial_number self log :
  is_nt w = false ->
  environ_HOME w = None ->
  get_default_data_dir w = Raise (KeyError "HOME")
  /\ attempt_download w serial_number (self, log)
     = (Ok (EmptyString, false),
        (mk retrieving_error (session self) (eeprom_bucket self),
         log ++ [Exec retrieving_error])).
Proof.
  intros Hnt Hh.
  assert (E : get_default_data_dir w = Raise (KeyError "HOME")).
  { unfold get_default_data_dir, environ_get_HOME. unfold is_nt in Hnt.
    now rewrite Hnt, Hh. }
  split; [exact E|]. unfold attempt_download. rewrite E. reflexivity.
Qed.

(** X25.  [attempt_download] always returns, with the manager's session and
    bucket as they were.  Its answer is True exactly when the bucket was
    there, the data directory was found and the download call succeeded; it
    shows no message then, and exactly the one retrieval error otherwise. *)
Theorem attempt_download_answer serial_number self log :
  exists local_file ok self' log',
    attempt_download w serial_number (self, log)
    = (Ok (local_file, ok), (self', log'))
    /\ session self' = session self
    /\ eeprom_bucket self' = eeprom_bucket self
    /\ shown log' = shown log ++ (if ok then [] else [retrieving_error])
    /\ (ok = true <->
        exists b data_dir,
          eeprom_bucket self = Some b
          /\ get_default_data_dir w = Ok data_dir
          /\ download_file w b (serial_number ++ ".json")
               (os_path_join w data_dir
                  ["eeprom_backups"; (serial_number ++ ".json")%string])
             = Ok tt).
Proof.
  unfold attempt_download.
  destruct (get_default_data_dir w) as [data_dir|e] eqn:Hd.
  - run_cloud. cbn [eeprom_bucket].
    destruct (eeprom_bucket self) as [b|] eqn:Hb.
    + destruct (download_file w b _ _) as [[]|e] eqn:He.
      * do 4 eexists. split; [reflexivity|].
        split; [reflexivity|]. split; [exact Hb|].
        split; [rewrite shown_app; simpl; reflexivity|].
        split; [intros _; eauto|reflexivity].
      * do 4 eexists. split; [reflexivity|].
        split; [reflexivity|]. split; [exact Hb|].
        split; [rewrite !shown_app; simpl;
                rewrite ?app_nil_r, <- ?app_assoc; reflexivity|].
        split; [discriminate|].
        intros [b' [d' [Eb [Ed Edl]]]].
        injection Eb as <-. injection Ed as <-. congruence.
    + do 4 eexists. split; [reflexivity|].
      split; [reflexivity|]. split; [exact Hb|].
      split; [rewrite shown_app; reflexivity|].
      split; [discriminate|].
      intros [b' [d' [Eb _]]]. discriminate.
  - rewrite download_failed_run.
    do 4 eexists. split; [reflexivity|].
    split; [reflexivity|]. split; [reflexivity|].
    split; [rewrite shown_app; reflexivity|].
    split; [discriminate|].
    intros [b' [d' [_ [Ed _]]]]. discriminate.
Qed.

(** X26.  Off Windows, a serial number that begins with the separator takes
    the download out of the data directory: the local file that
    [attempt_download] asks for is the serial number followed by ".json",
    whatever [HOME] is. *)
Theorem attempt_download_absolute_serial serial_number self log b h :
  is_nt w = false ->
  environ_HOME w = Some h ->
  eeprom_bucket self = Some b ->
  Str.head_in [posixpath.sep] serial_number = true ->
  exists r self' rest,
    attempt_download w serial_number (self, log)
    = (Ok r,
       (self',
        log ++ DownloadFile b (serial_number ++ ".json")
                 (serial_number ++ ".json")
               :: rest))
    /\ fst r = (serial_number ++ ".json")%string.
Proof.
  intros Hnt Hh Hb Hs.
  assert (Hd : get_default_data_dir w
               = Ok (posixpath.join h ["EnlightenSpectra"])).
  { unfold get_default_data_dir, environ_get_HOME, os_path_join.
    unfold is_nt in Hnt. now rewrite Hnt, Hh. }
  assert (Hj : os_path_join w (posixpath.join h ["EnlightenSpectra"])
                 ["eeprom_backups"; (serial_number ++ ".json")%string]
               = (serial_number ++ ".json")%string).
  { unfold os_path_join. unfold is_nt in Hnt. rewrite Hnt.
    apply (posixpath_join_absolute_last _ ["eeprom_backups"]).
    destruct serial_number as [|c rest]; [discriminate Hs | exact Hs]. }
  destruct (attempt_download_request w serial_number self log b _ Hb Hd)
    as [r [self' [rest [E F]]]].
  rewrite Hj in E, F. eauto.
Qed.

End RestoreMore.

Lemma perform_restore_cancelled_witness :
  exists sess,
    CloudManager.perform_restore "pool" cancelling_world
      (CloudManager.init, [])
    = (Ok tt,
       (CloudManager.mk (CloudManager.result_message CloudManager.init)
          (Some sess) (Some "eeprom-factory-files"),
        [])).
Proof.
  apply (perform_restore_cancelled "pool" cancelling_world CloudManager.init
           [] "").
  - reflexivity.
  - exists "id", (mkCredentials "key" "secret" "token"). repeat split.
Defined.

Lemma perform_restore_download_fails_witness :
  exists self',
    CloudManager.perform_restore "pool" missing_object_world
      (CloudManager.init, [])
    = (Ok tt,
       (self',
        [CloudManager.DownloadFile "eeprom-factory-files" "WP-00123.json"
           "/home/u/EnlightenSpectra/eeprom_backups/WP-00123.json";
         CloudManager.Exec CloudManager.retrieving_error])).
Proof.
  destruct (perform_restore_download_fails "pool" missing_object_world
              CloudManager.init [] "WP-00123" "/home/u/EnlightenSpectra"
              (ClientError "404")) as [self' E].
  - reflexivity.
  - exists "id", (mkCredentials "key" "secret" "token"). repeat split.
  - reflexivity.
  - reflexivity.
  - exists self'. exact E.
Defined.

Lemma attempt_download_without_home_witness :
  CloudManager.attempt_download homeless_world "WP-00123" (connected, [])
  = (Ok (EmptyString, false),
     (CloudManager.mk CloudManager.retrieving_error
        (CloudManager.session connected)
        (CloudManager.eeprom_bucket connected),
      [CloudManager.Exec CloudManager.retrieving_error])).
Proof.
  apply (attempt_download_without_home homeless_world "WP-00123" connected []);
    reflexivity.
Defined.

Lemma attempt_download_absolute_serial_witness :
  exists r self' rest,
    CloudManager.attempt_download posix_world "/etc/cron.d/job"
      (connected, [])
    = (Ok r,
       (self',
        CloudManager.DownloadFile "eeprom-factory-files"
          "/etc/cron.d/job.json" "/etc/cron.d/job.json"
        :: rest))
    /\ fst r = "/etc/cron.d/job.json".
Proof.
  destruct (attempt_download_absolute_serial posix_world "/etc/cron.d/job"
              connected [] "eeprom-factory-files" "/home/u")
    as [r [self' [rest [E F]]]]; try reflexivity.
  exists r, self', rest. split; [exact E | exact F].
Defined.
